(** * Mergington High School activities API: schedule parsing, collision
      detection and the signup workflow of [src/app.py].

    The development is a shallow embedding of [parse_schedule],
    [schedules_collide] and [signup_for_activity].

    Modelling conventions.
    - A Python [str] is a [string]: a sequence of code points, here the code
      points below 256 (on that range [\d] is exactly [0-9], and the white
      space of [str.strip] and of [\s] is the set recognised by [isspace]).
    - A Python [int] is a [Z].
    - An exception is a value of [exn]; a call that may raise returns a
      [result], and [x <- e ;; k] propagates a raised exception.
    - The module-level dict [activities] keeps insertion order, which
      [activities.items()] follows; it is an association list. *)

From Stdlib Require Import String Ascii List ZArith Bool Lia.
Import ListNotations.

Local Open Scope string_scope.
Local Open Scope list_scope.

(** ** Exceptions *)

Inductive exn : Type :=
| HTTPException (status_code : Z) (detail : string)
| ValueError.

Inductive result (A : Type) : Type :=
| Ok (a : A)
| Raise (e : exn).

Arguments Ok {A} a.
Arguments Raise {A} e.

Definition bind {A B : Type} (m : result A) (k : A -> result B) : result B :=
  match m with
  | Ok a => k a
  | Raise e => Raise e
  end.

Notation "x <- m ;; k" := (bind m (fun x => k))
  (at level 61, m at next level, right associativity).

(** ** String primitives of Python used by the parser *)

Module Py.

(** [str.split(sep)] for a non-empty separator: the pieces between the
    leftmost non-overlapping occurrences of [sep].  [skip] counts the
    characters of a separator still to be dropped, [cur] is the piece being
    accumulated. *)
Fixpoint split_from (sep : string) (skip : nat) (cur s : string) : list string :=
  match s with
  | EmptyString => [cur]
  | String c rest =>
      match skip with
      | S k => split_from sep k cur rest
      | O =>
          if prefix sep s
          then cur :: split_from sep (String.length sep - 1) EmptyString rest
          else split_from sep 0 (cur ++ String c EmptyString)%string rest
      end
  end.

Definition split (sep s : string) : list string := split_from sep 0 "" s.

(** White space in the sense of [str.isspace], for code points below 256:
    TAB..CR, FS..US, SPACE, NEL (0x85) and NBSP (0xA0). *)
Definition isspace (c : ascii) : bool :=
  let n := nat_of_ascii c in
  ((9 <=? n) && (n <=? 13) || (28 <=? n) && (n <=? 32)
   || (n =? 133) || (n =? 160))%nat.

Fixpoint lstrip (s : string) : string :=
  match s with
  | EmptyString => EmptyString
  | String c rest => if isspace c then lstrip rest else s
  end.

Fixpoint rstrip (s : string) : string :=
  match s with
  | EmptyString => EmptyString
  | String c rest =>
      match rstrip rest with
      | EmptyString => if isspace c then EmptyString else String c EmptyString
      | kept => String c kept
      end
  end.

(** [str.strip()] *)
Definition strip (s : string) : string := rstrip (lstrip s).

Definition isdigit (c : ascii) : bool :=
  let n := nat_of_ascii c in ((48 <=? n) && (n <=? 57))%nat.

(** [int(s)] on a string of decimal digits. *)
Fixpoint int_from (acc : Z) (s : string) : Z :=
  match s with
  | EmptyString => acc
  | String c rest => int_from (10 * acc + Z.of_nat (nat_of_ascii c - 48)) rest
  end.

Definition int (s : string) : Z := int_from 0 s.

(** [str.lower()], for code points below 256: the letters A-Z and the
    capitals 0xC0..0xDE other than the multiplication sign move up by 32. *)
Definition lower_char (c : ascii) : ascii :=
  let n := nat_of_ascii c in
  if ((65 <=? n) && (n <=? 90)
      || (192 <=? n) && (n <=? 222) && negb (n =? 215))%nat
  then ascii_of_nat (n + 32) else c.

Fixpoint lower (s : string) : string :=
  match s with
  | EmptyString => EmptyString
  | String c rest => String (lower_char c) (lower rest)
  end.

End Py.

(** ** Regular expressions (module [re])

    The fragment of the pattern language that the parser and [strptime]
    use.  A match is computed with the priorities of a backtracking matcher:
    [matches r s] lists, most preferred first, every way [r] matches a
    prefix of [s], as the pair of the text consumed and the text left. *)

Module Re.

Inductive regex : Type :=
| Chr (c : ascii)                 (* a literal character *)
| Digit                           (* \d *)
| Space                           (* \s *)
| Range (lo hi : ascii)           (* [lo-hi] *)
| OneOf (cs : string)             (* [abc] *)
| Seq (r1 r2 : regex)             (* r1r2 *)
| Alt (r1 r2 : regex)             (* r1|r2 *)
| Rep (lo hi : nat) (r : regex)   (* r{lo,hi}, greedy *)
| Plus (r : regex).               (* r+, greedy *)

Fixpoint mem (c : ascii) (cs : string) : bool :=
  match cs with
  | EmptyString => false
  | String x rest => Ascii.eqb c x || mem c rest
  end.

Definition one (p : ascii -> bool) (s : string) : list (string * string) :=
  match s with
  | String c rest => if p c then [(String c EmptyString, rest)] else []
  | EmptyString => []
  end.

Definition in_range (lo hi c : ascii) : bool :=
  ((nat_of_ascii lo <=? nat_of_ascii c) && (nat_of_ascii c <=? nat_of_ascii hi))%nat.

(** [r1] then [k], keeping the order of preference. *)
Definition andthen (first : list (string * string))
    (k : string -> list (string * string)) : list (string * string) :=
  flat_map (fun m1 => map (fun m2 => ((fst m1 ++ fst m2)%string, snd m2)) (k (snd m1))) first.

(** Greedy bounded repetition of a matcher [m]: between [lo] and [hi]
    times, one more round being preferred to stopping. *)
Fixpoint rep (m : string -> list (string * string)) (lo hi : nat) (s : string)
  : list (string * string) :=
  match hi with
  | O => if (lo =? 0)%nat then [(EmptyString, s)] else []
  | S hi' =>
      andthen (m s) (rep m (pred lo) hi')
      ++ (if (lo =? 0)%nat then [(EmptyString, s)] else [])
  end.

Fixpoint matches (r : regex) (s : string) : list (string * string) :=
  match r with
  | Chr c => one (Ascii.eqb c) s
  | Digit => one Py.isdigit s
  | Space => one Py.isspace s
  | Range lo hi => one (in_range lo hi) s
  | OneOf cs => one (fun c => mem c cs) s
  | Seq r1 r2 => andthen (matches r1 s) (matches r2)
  | Alt r1 r2 => matches r1 s ++ matches r2 s
  | Rep lo hi r1 => rep (matches r1) lo hi s
  | Plus r1 => rep (matches r1) 1 (String.length s) s
  end.

(** A literal string. *)
Fixpoint lit (w : string) (s : string) : list (string * string) :=
  match w with
  | EmptyString => [(EmptyString, s)]
  | String c rest => andthen (matches (Chr c) s) (lit rest)
  end.

End Re.

(** ** Times of day *)

(** [datetime.time]: the parser only ever sets the hour and the minute. *)
Record time : Type := mktime { hour : Z; minute : Z }.

(** [t1 < t2] on [datetime.time]: lexicographic on the fields. *)
Definition time_lt (t1 t2 : time) : bool :=
  (hour t1 <? hour t2)%Z || ((hour t1 =? hour t2)%Z && (minute t1 <? minute t2)%Z).

Module Strptime.
Import Re.

(** The directives of the format ["%I:%M %p"], as [_strptime] compiles
    them; the whole pattern is matched ignoring case, and white space in the
    format stands for [\s+]. *)
Definition re_I : regex :=
  Alt (Seq (Chr "1") (Range "0" "2"))
      (Alt (Seq (Chr "0") (Range "1" "9")) (Range "1" "9")).

Definition re_M : regex := Alt (Seq (Range "0" "5") Digit) Digit.

Definition re_p : regex :=
  Alt (Seq (OneOf "aA") (OneOf "mM")) (Seq (OneOf "pP") (OneOf "mM")).

(** The first match of the compiled format, with its groups I, M and p and
    the text left after it. *)
Definition format_match (s : string) : option (string * string * string * string) :=
  hd_error
    (flat_map (fun mI =>
       flat_map (fun mc =>
         flat_map (fun mM =>
           flat_map (fun ms =>
             map (fun mp => (fst mI, fst mM, fst mp, snd mp))
                 (matches re_p (snd ms)))
             (matches (Plus Space) (snd mM)))
           (matches re_M (snd mc)))
         (matches (Chr ":") (snd mI)))
       (matches re_I s)).

(** [datetime.strptime(s, "%I:%M %p").time()] *)
Definition strptime (s : string) : result time :=
  match format_match s with
  | None => Raise ValueError                (* does not match format *)
  | Some (g_I, g_M, g_p, rest) =>
      match rest with
      | String _ _ => Raise ValueError      (* unconverted data remains *)
      | EmptyString =>
          let hour := Py.int g_I in
          let ampm := Py.lower g_p in
          let hour :=
            if String.eqb ampm "am"
            then (if (hour =? 12)%Z then 0%Z else hour)
            else (if (hour =? 12)%Z then hour else (hour + 12)%Z) in
          Ok (mktime hour (Py.int g_M))
      end
  end.

End Strptime.

(** ** parse_schedule *)

Definition slot : Type := (string * time * time)%type.

Definition slot_day (s : slot) : string := fst (fst s).
Definition slot_start (s : slot) : time := snd (fst s).
Definition slot_end (s : slot) : time := snd s.

Definition days_map : list (string * string) :=
  [ ("Mondays", "Monday"); ("Tuesdays", "Tuesday"); ("Wednesdays", "Wednesday");
    ("Thursdays", "Thursday"); ("Fridays", "Friday"); ("Saturdays", "Saturday");
    ("Sundays", "Sunday") ].

(** [d.get(key, default)] *)
Fixpoint dict_get (d : list (string * string)) (key default : string) : string :=
  match d with
  | [] => default
  | (k, v) :: rest => if String.eqb k key then v else dict_get rest key default
  end.

(** [\d{1,2}:\d{2} [APM]{2}] *)
Definition time_re : Re.regex :=
  Re.Seq (Re.Rep 1 2 Re.Digit)
    (Re.Seq (Re.Chr ":")
       (Re.Seq (Re.Rep 2 2 Re.Digit)
          (Re.Seq (Re.Chr " ") (Re.Rep 2 2 (Re.OneOf "APM"))))).

(** [re.match(r"(\d{1,2}:\d{2} [APM]{2}) - (\d{1,2}:\d{2} [APM]{2})", s)]
    followed by [.groups()]: the two groups of the first match, if any. *)
Definition time_match (s : string) : option (string * string) :=
  hd_error
    (flat_map (fun m1 =>
       flat_map (fun md =>
         map (fun m2 => (fst m1, fst m2)) (Re.matches time_re (snd md)))
         (Re.lit " - " (snd m1)))
       (Re.matches time_re s)).

Definition parse_schedule (schedule_str : string) : result (list slot) :=
  let parts := Py.split ", " schedule_str in
  let days_part := nth 0 parts "" in
  let time_part := if (1 <? List.length parts)%nat then nth 1 parts "" else "" in
  let days := map Py.strip (Py.split " and " days_part) in
  match time_match time_part with
  | Some (start_str, end_str) =>
      start_dt <- Strptime.strptime start_str ;;
      end_dt <- Strptime.strptime end_str ;;
      Ok (map (fun day => (dict_get days_map day day, start_dt, end_dt)) days)
  | None =>
      let multi_days := map Py.strip (Py.split "," days_part) in
      if (1 <? List.length parts)%nat then
        match time_match (nth 1 parts "") with
        | Some (start_str, end_str) =>
            start_dt <- Strptime.strptime start_str ;;
            end_dt <- Strptime.strptime end_str ;;
            Ok (map (fun day => (dict_get days_map day day, start_dt, end_dt))
                    multi_days)
        | None => Ok []
        end
      else Ok []
  end.

(** ** schedules_collide *)

(** The test of the inner loop body on one pair of slots. *)
Definition overlap (s1 s2 : slot) : bool :=
  let '(day1, start1, end1) := s1 in
  let '(day2, start2, end2) := s2 in
  String.eqb day1 day2 && (time_lt start1 end2 && time_lt start2 end1).

(** The two nested loops return [True] at the first pair that passes the
    test, and [False] when they run to completion. *)
Definition slots_collide (slots1 slots2 : list slot) : bool :=
  existsb (fun s1 => existsb (fun s2 => overlap s1 s2) slots2) slots1.

Definition schedules_collide (schedule1 schedule2 : string) : result bool :=
  slots1 <- parse_schedule schedule1 ;;
  slots2 <- parse_schedule schedule2 ;;
  Ok (slots_collide slots1 slots2).

(** ** The activity directory *)

Record Activity : Type := mkActivity {
  description : string;
  schedule : string;
  max_participants : Z;
  participants : list string
}.

(** The dict [activities]: name -> record, in insertion order. *)
Definition Directory : Type := list (string * Activity).

(** In-memory activity database, as seeded at start-up. *)
Definition activities : Directory :=
  [ ("Basketball Team",
     mkActivity "Join the school basketball team and compete in local leagues"
       "Wednesdays, 4:00 PM - 6:00 PM" 15
       ["alex@mergington.edu"; "jordan@mergington.edu"]);
    ("Soccer Club",
     mkActivity "Practice soccer skills and play friendly matches"
       "Saturdays, 10:00 AM - 12:00 PM" 20
       ["lucas@mergington.edu"; "mia@mergington.edu"]);
    ("Art Workshop",
     mkActivity "Explore painting, drawing, and sculpture techniques"
       "Thursdays, 3:30 PM - 5:00 PM" 10
       ["ava@mergington.edu"; "liam@mergington.edu"]);
    ("Drama Club",
     mkActivity "Act, direct, and produce school plays and performances"
       "Mondays, 4:00 PM - 5:30 PM" 18
       ["ella@mergington.edu"; "noah@mergington.edu"]);
    ("Debate Team",
     mkActivity "Develop public speaking and argumentation skills"
       "Tuesdays, 4:00 PM - 5:30 PM" 12
       ["oliver@mergington.edu"; "isabella@mergington.edu"]);
    ("Math Club",
     mkActivity "Solve challenging math problems and prepare for competitions"
       "Fridays, 2:00 PM - 3:30 PM" 16
       ["ethan@mergington.edu"; "charlotte@mergington.edu"]);
    ("Chess Club",
     mkActivity "Learn strategies and compete in chess tournaments"
       "Fridays, 3:30 PM - 5:00 PM" 12
       ["michael@mergington.edu"; "daniel@mergington.edu"]);
    ("Programming Class",
     mkActivity "Learn programming fundamentals and build software projects"
       "Tuesdays and Thursdays, 3:30 PM - 4:30 PM" 20
       ["emma@mergington.edu"; "sophia@mergington.edu"]);
    ("Gym Class",
     mkActivity "Physical education and sports activities"
       "Mondays, Wednesdays, Fridays, 2:00 PM - 3:00 PM" 30
       ["john@mergington.edu"; "olivia@mergington.edu"]) ].

(** [activities[name]], [None] when [name not in activities]. *)
Fixpoint lookup (name : string) (d : Directory) : option Activity :=
  match d with
  | [] => None
  | (k, a) :: rest => if String.eqb k name then Some a else lookup name rest
  end.

(** [email in participants] *)
Definition contains (email : string) (l : list string) : bool :=
  existsb (String.eqb email) l.

(** [activity["participants"].append(email)] on one record. *)
Definition enrol (email : string) (a : Activity) : Activity :=
  mkActivity (description a) (schedule a) (max_participants a)
             (participants a ++ [email]).

(** The same append, seen from the directory that holds the record. *)
Fixpoint append_participant (name email : string) (d : Directory) : Directory :=
  match d with
  | [] => []
  | (k, a) :: rest =>
      if String.eqb k name then (k, enrol email a) :: rest
      else (k, a) :: append_participant name email rest
  end.

(** ** signup_for_activity *)

Definition a_grave : string := String "224" EmptyString.

(** The f-string of the collision error. *)
Definition collision_detail (email activity_name other_name : string) : string :=
  ("Impossible d'inscrire " ++ email ++ " " ++ a_grave ++ " " ++ activity_name
   ++ " : les horaires chevauchent avec " ++ other_name ++ ".")%string.

(** The loop over [activities.items()]. *)
Fixpoint check_collisions (items : Directory) (activity_name email : string)
    (activity : Activity) : result unit :=
  match items with
  | [] => Ok tt
  | (other_name, other_activity) :: rest =>
      if String.eqb other_name activity_name
      then check_collisions rest activity_name email activity
      else if contains email (participants other_activity)
      then
        collide <- schedules_collide (schedule activity) (schedule other_activity) ;;
        if (collide : bool)
        then Raise (HTTPException 400
                      (collision_detail email activity_name other_name))
        else check_collisions rest activity_name email activity
      else check_collisions rest activity_name email activity
  end.

(** The handler, on the directory [d] it reads and mutates: the outcome
    (the message of the response, or the exception raised) and the directory
    afterwards. *)
Definition signup_for_activity (d : Directory) (activity_name email : string)
  : result string * Directory :=
  match lookup activity_name d with
  | None => (Raise (HTTPException 404 "Activity not found"), d)
  | Some activity =>
      if contains email (participants activity)
      then (Raise (HTTPException 400 "Student already signed up for this activity"), d)
      else
        match check_collisions d activity_name email activity with
        | Raise e => (Raise e, d)
        | Ok _ =>
            (Ok ("Signed up " ++ email ++ " for " ++ activity_name)%string,
             append_participant activity_name email d)
        end
  end.

(** The directories the running program can be in. *)
Inductive reachable : Directory -> Prop :=
| reachable_seed : reachable activities
| reachable_signup (d : Directory) (activity_name email : string) :
    reachable d -> reachable (snd (signup_for_activity d activity_name email)).

(** No schedule text of the directory makes the parser raise. *)
Definition parses (schedule_str : string) : bool :=
  match parse_schedule schedule_str with
  | Ok _ => true
  | Raise _ => false
  end.

Definition schedules_parse (d : Directory) : bool :=
  forallb (fun item => parses (schedule (snd item))) d.

(** The premise of a collision-free signup, as a test that can be run. *)
Definition collision_free (d : Directory) (activity_name email : string)
    (activity : Activity) : bool :=
  forallb (fun item =>
             String.eqb (fst item) activity_name
             || negb (contains email (participants (snd item)))
             || match schedules_collide (schedule activity) (schedule (snd item)) with
                | Ok false => true
                | _ => false
                end) d.

(** No email occurs twice in the list, as a test that can be run. *)
Fixpoint distinct (l : list string) : bool :=
  match l with
  | [] => true
  | x :: rest => negb (contains x rest) && distinct rest
  end.

(** A directory the program reaches in which the roster of "Art Workshop"
    (capacity 10) is full: eight new students have signed up. *)
Definition newcomers : list string :=
  [ "ben@mergington.edu"; "chloe@mergington.edu"; "dylan@mergington.edu";
    "eva@mergington.edu"; "finn@mergington.edu"; "grace@mergington.edu";
    "henry@mergington.edu"; "iris@mergington.edu" ].

Definition full_workshop : Directory :=
  fold_left (fun d email => snd (signup_for_activity d "Art Workshop" email))
            newcomers activities.

Definition full_art_workshop : Activity :=
  mkActivity "Explore painting, drawing, and sculpture techniques"
    "Thursdays, 3:30 PM - 5:00 PM" 10
    ([ "ava@mergington.edu"; "liam@mergington.edu" ] ++ newcomers).

(** ** Definitions used to state further properties *)

(** Two records that differ at most by students added at the end of the
    roster. *)
Definition roster_grown (before after : Activity) : Prop :=
  description after = description before /\
  schedule after = schedule before /\
  max_participants after = max_participants before /\
  exists joined, participants after = participants before ++ joined.

(** The same activities, under the same names and in the same order, with
    rosters that have only grown. *)
Definition directory_grown (before after : Directory) : Prop :=
  Forall2 (fun item item' =>
             fst item' = fst item /\ roster_grown (snd item) (snd item'))
          before after.

(** No student is enrolled in two activities that the overlap check
    reports as colliding. *)
Definition no_double_booking (d : Directory) : Prop :=
  forall name1 name2 activity1 activity2 email,
    name1 <> name2 ->
    lookup name1 d = Some activity1 ->
    lookup name2 d = Some activity2 ->
    In email (participants activity1) ->
    In email (participants activity2) ->
    schedules_collide (schedule activity1) (schedule activity2) = Ok false.

(** The same, as a test that can be run. *)
Definition no_double_booking_b (d : Directory) : bool :=
  forallb (fun item1 =>
    forallb (fun item2 =>
      String.eqb (fst item1) (fst item2)
      || forallb (fun email =>
           negb (contains email (participants (snd item2)))
           || match schedules_collide (schedule (snd item1))
                                      (schedule (snd item2)) with
              | Ok false => true
              | _ => false
              end)
           (participants (snd item1)))
      d)
    d.

(** [parse_schedule] without its fallback branch. *)
Definition parse_schedule_first_branch (schedule_str : string) : result (list slot) :=
  let parts := Py.split ", " schedule_str in
  let days_part := nth 0 parts "" in
  let time_part := if (1 <? List.length parts)%nat then nth 1 parts "" else "" in
  let days := map Py.strip (Py.split " and " days_part) in
  match time_match time_part with
  | Some (start_str, end_str) =>
      start_dt <- Strptime.strptime start_str ;;
      end_dt <- Strptime.strptime end_str ;;
      Ok (map (fun day => (dict_get days_map day day, start_dt, end_dt)) days)
  | None => Ok []
  end.

(** [sub in s] *)
Fixpoint occurs (sub s : string) : bool :=
  prefix sub s
  || match s with
     | EmptyString => false
     | String _ rest => occurs sub rest
     end.

(** No character of the text is a comma. *)
Fixpoint comma_free (s : string) : bool :=
  match s with
  | EmptyString => true
  | String c rest => negb (Ascii.eqb c ",") && comma_free rest
  end.

(** A reading of the 12-hour clock: an hour from 1 to 12, a minute from 0
    to 59, before or after noon; [clock_padded] says whether an hour below
    10 is written with a leading zero. *)
Record clock : Type := mkclock {
  clock_hour : nat;
  clock_minute : nat;
  clock_pm : bool;
  clock_padded : bool
}.

Definition valid_clock (c : clock) : bool :=
  ((1 <=? clock_hour c) && (clock_hour c <=? 12) && (clock_minute c <=? 59))%nat.

Definition digit (n : nat) : ascii := ascii_of_nat (48 + n).

Definition two_digits (n : nat) : string :=
  String (digit (n / 10)) (String (digit (n mod 10)) EmptyString).

(** The text of a clock reading, as in "4:00 PM" or "04:00 PM". *)
Definition show_clock (c : clock) : string :=
  ((if (clock_hour c <? 10)%nat && negb (clock_padded c)
    then String (digit (clock_hour c)) EmptyString
    else two_digits (clock_hour c))
   ++ ":" ++ two_digits (clock_minute c) ++ " "
   ++ (if clock_pm c then "PM" else "AM"))%string.

(** The time of day a clock reading denotes: 12 AM is midnight, 12 PM is
    noon. *)
Definition time_of_clock (c : clock) : time :=
  let h := clock_hour c in
  mktime (Z.of_nat (if clock_pm c
                    then (if (h =? 12)%nat then 12 else h + 12)
                    else (if (h =? 12)%nat then 0 else h)))
         (Z.of_nat (clock_minute c)).

(** A time of day: an hour from 0 to 23 and a minute from 0 to 59. *)
Definition time_in_range (t : time) : Prop :=
  (0 <= hour t <= 23)%Z /\ (0 <= minute t <= 59)%Z.

(** A text that does not start with white space. *)
Definition starts_clean (s : string) : Prop :=
  match s with
  | EmptyString => True
  | String c _ => Py.isspace c = false
  end.

(** * The embedding on concrete inputs *)

Ltac run := vm_compute; reflexivity.

Example split_keeps_empty_pieces :
  Py.split ", " "a, b, , c, " = ["a"; "b"; ""; "c"; ""]
  /\ Py.split ", " "" = [""]
  /\ Py.split ", " ",, " = [","; ""].
Proof. repeat split; run. Qed.

Example strip_both_ends : Py.strip "  Tuesdays " = "Tuesdays".
Proof. run. Qed.

Example time_match_is_a_prefix_match :
  time_match "4:00 PM - 6:00 PMxyz" = Some ("4:00 PM", "6:00 PM")
  /\ time_match "14:00 PM - 6:00 MM" = Some ("14:00 PM", "6:00 MM")
  /\ time_match "144:00 PM - 6:00 MM" = None
  /\ time_match " 4:00 PM - 6:00 PM" = None
  /\ time_match "4:00 pm - 6:00 pm" = None.
Proof. repeat split; run. Qed.

Example strptime_noon_and_midnight :
  Strptime.strptime "12:00 AM" = Ok (mktime 0 0)
  /\ Strptime.strptime "12:30 PM" = Ok (mktime 12 30)
  /\ Strptime.strptime "04:05 PM" = Ok (mktime 16 5)
  /\ Strptime.strptime "4:00 PM " = Raise ValueError
  /\ Strptime.strptime "0:00 AM" = Raise ValueError.
Proof. repeat split; run. Qed.

(** The example of the docstring, and the two-day schedule of the seed. *)
Example parse_schedule_docstring :
  parse_schedule "Wednesdays, 4:00 PM - 6:00 PM"
  = Ok [("Wednesday", mktime 16 0, mktime 18 0)].
Proof. run. Qed.

Example parse_schedule_two_days :
  parse_schedule "Tuesdays and Thursdays, 3:30 PM - 4:30 PM"
  = Ok [("Tuesday", mktime 15 30, mktime 16 30);
        ("Thursday", mktime 15 30, mktime 16 30)].
Proof. run. Qed.

Example parse_schedule_unknown_day_passes_through :
  parse_schedule "Weekends, 9:00 AM - 10:00 AM"
  = Ok [("Weekends", mktime 9 0, mktime 10 0)].
Proof. run. Qed.

Example parse_schedule_no_time_range :
  parse_schedule "" = Ok [] /\ parse_schedule "Mondays" = Ok []
  /\ parse_schedule "Mondays, at noon" = Ok [].
Proof. repeat split; run. Qed.

Example overlapping_schedules_collide :
  schedules_collide "Wednesdays, 4:00 PM - 6:00 PM" "Wednesdays, 5:00 PM - 5:30 PM"
  = Ok true.
Proof. run. Qed.

Example different_days_do_not_collide :
  schedules_collide "Mondays, 4:00 PM - 5:00 PM" "Tuesdays, 4:00 PM - 5:00 PM"
  = Ok false.
Proof. run. Qed.

Example signup_new_student_for_chess :
  fst (signup_for_activity activities "Chess Club" "zoe@mergington.edu")
  = Ok "Signed up zoe@mergington.edu for Chess Club".
Proof. run. Qed.

Example signup_collision_names_the_activity :
  fst (signup_for_activity activities "Programming Class" "ava@mergington.edu")
  = Raise (HTTPException 400
             (collision_detail "ava@mergington.edu" "Programming Class"
                               "Art Workshop")).
Proof. run. Qed.

(** * Properties of the parser and of the overlap check *)

Section ResultLemmas.
Context {A B : Type}.
Variables (m : result A) (k : A -> result B).

Lemma bind_Ok_inv (b : B) :
  bind m k = Ok b -> exists a, m = Ok a /\ k a = Ok b.
Proof. destruct m as [a|e]; simpl; [eauto | discriminate]. Qed.

Lemma bind_Raise_inv (e : exn) :
  bind m k = Raise e -> m = Raise e \/ exists a, m = Ok a /\ k a = Raise e.
Proof. destruct m as [a|e']; simpl; [eauto | intros [= ->]; now left]. Qed.
End ResultLemmas.

(** The only exception [strptime] raises is [ValueError]. *)
Lemma strptime_raises (s : string) (e : exn) :
  Strptime.strptime s = Raise e -> e = ValueError.
Proof.
  unfold Strptime.strptime.
  destruct (Strptime.format_match s) as [[[[g_I g_M] g_p] rest]|];
    [destruct rest|]; congruence.
Qed.

(** The body shared by the two branches of [parse_schedule]. *)
Lemma slots_of_days_Ok (days : list string) (start_str end_str : string)
    (slots : list slot) :
  (start_dt <- Strptime.strptime start_str ;;
   end_dt <- Strptime.strptime end_str ;;
   Ok (map (fun day => (dict_get days_map day day, start_dt, end_dt)) days))
  = Ok slots ->
  exists start_dt end_dt,
    slots = map (fun day => (dict_get days_map day day, start_dt, end_dt)) days.
Proof.
  intros H.
  apply bind_Ok_inv in H as (start_dt & _ & H).
  apply bind_Ok_inv in H as (end_dt & _ & H).
  injection H as <-. eauto.
Qed.

Lemma slots_of_days_Raise (days : list string) (start_str end_str : string)
    (e : exn) :
  (start_dt <- Strptime.strptime start_str ;;
   end_dt <- Strptime.strptime end_str ;;
   Ok (map (fun day => (dict_get days_map day day, start_dt, end_dt)) days))
  = Raise e ->
  e = ValueError.
Proof.
  intros H.
  apply bind_Raise_inv in H as [H | (start_dt & _ & H)].
  - eapply strptime_raises; eassumption.
  - apply bind_Raise_inv in H as [H | (end_dt & _ & H)].
    + eapply strptime_raises; eassumption.
    + discriminate.
Qed.

(** [parse_schedule] raises nothing but [ValueError]. *)
Lemma parse_schedule_raises (schedule_str : string) (e : exn) :
  parse_schedule schedule_str = Raise e -> e = ValueError.
Proof.
  unfold parse_schedule. cbv zeta.
  destruct (time_match _) as [[start_str end_str]|].
  - apply slots_of_days_Raise.
  - destruct (1 <? _)%nat; [|discriminate].
    destruct (time_match _) as [[start_str end_str]|]; [|discriminate].
    apply slots_of_days_Raise.
Qed.

(** All the slots of one schedule carry the same start and end time. *)
Lemma parse_schedule_uniform (schedule_str : string) (slots : list slot) :
  parse_schedule schedule_str = Ok slots ->
  exists start_dt end_dt,
    forall s, In s slots -> slot_start s = start_dt /\ slot_end s = end_dt.
Proof.
  assert (Hmap : forall (days : list string) start_dt end_dt (s : slot),
             In s (map (fun day => (dict_get days_map day day, start_dt, end_dt)) days) ->
             slot_start s = start_dt /\ slot_end s = end_dt).
  { intros days start_dt end_dt s Hin.
    apply in_map_iff in Hin as (day & <- & _). now split. }
  unfold parse_schedule. cbv zeta.
  destruct (time_match _) as [[start_str end_str]|].
  - intros H. apply slots_of_days_Ok in H as (start_dt & end_dt & ->).
    exists start_dt, end_dt. apply Hmap.
  - destruct (1 <? _)%nat.
    + destruct (time_match _) as [[start_str end_str]|].
      * intros H. apply slots_of_days_Ok in H as (start_dt & end_dt & ->).
        exists start_dt, end_dt. apply Hmap.
      * intros [= <-]. exists (mktime 0 0), (mktime 0 0). intros s [].
    + intros [= <-]. exists (mktime 0 0), (mktime 0 0). intros s [].
Qed.

(** The branch taken when the text after the first [", "] is not a time
    range tests that same text again, so it never yields a slot. *)
Lemma parse_schedule_fallback (schedule_str : string) :
  let parts := Py.split ", " schedule_str in
  time_match (if (1 <? List.length parts)%nat then nth 1 parts "" else "") = None ->
  parse_schedule schedule_str = Ok [].
Proof.
  unfold parse_schedule. cbv zeta. intros H. rewrite H.
  destruct (1 <? _)%nat eqn:Hlen; [|reflexivity].
  now rewrite H.
Qed.

Lemma time_lt_irrefl (t : time) : time_lt t t = false.
Proof.
  unfold time_lt. rewrite !Z.ltb_irrefl, andb_false_r. reflexivity.
Qed.

Lemma overlap_sym (s1 s2 : slot) : overlap s1 s2 = overlap s2 s1.
Proof.
  destruct s1 as [[day1 start1] end1], s2 as [[day2 start2] end2]. simpl.
  rewrite (String.eqb_sym day1 day2). f_equal. apply andb_comm.
Qed.

Lemma slots_collide_true (slots1 slots2 : list slot) :
  slots_collide slots1 slots2 = true <->
  exists s1 s2, In s1 slots1 /\ In s2 slots2 /\ overlap s1 s2 = true.
Proof.
  unfold slots_collide. rewrite existsb_exists. split.
  - intros (s1 & H1 & H). apply existsb_exists in H as (s2 & H2 & H). eauto.
  - intros (s1 & s2 & H1 & H2 & H). exists s1. split; [assumption|].
    apply existsb_exists. eauto.
Qed.

Lemma slots_collide_sym (slots1 slots2 : list slot) :
  slots_collide slots1 slots2 = slots_collide slots2 slots1.
Proof.
  apply eq_iff_eq_true. rewrite !slots_collide_true.
  split; intros (s1 & s2 & H1 & H2 & H); exists s2, s1;
    rewrite overlap_sym; auto.
Qed.

(** C1. On the three-day schedule of the seed data (the example of the
    comment in the fallback branch) [parse_schedule] returns no slot at all,
    where one slot per listed day is expected: the text after the first
    [", "] is the second day, never the time range.  The schedule therefore
    collides with nothing, not even with a class in one of its own hours. *)
Theorem parse_schedule_three_days :
  parse_schedule "Mondays, Wednesdays, Fridays, 2:00 PM - 3:00 PM" = Ok [] /\
  schedules_collide "Mondays, Wednesdays, Fridays, 2:00 PM - 3:00 PM"
                    "Mondays, 2:00 PM - 3:00 PM" = Ok false.
Proof. split; run. Qed.

(** C2. [parse_schedule] raises [ValueError] on texts that the time pattern
    accepts and [strptime] rejects: an hour outside 1..12, a minute above
    59, a marker made of the letters A, P, M that is neither AM nor PM. *)
Theorem parse_schedule_raises_ValueError :
  parse_schedule "Mondays, 13:00 PM - 2:00 PM" = Raise ValueError /\
  parse_schedule "Mondays, 4:60 PM - 5:00 PM" = Raise ValueError /\
  parse_schedule "Mondays, 4:00 AA - 5:00 PM" = Raise ValueError.
Proof. repeat split; run. Qed.

(** C3 (as stated, refuted). A time range whose end precedes its start
    has a non-zero duration, and the schedule does not collide with
    itself. *)
Lemma self_collision_reversed_range :
  ~ (forall (A : string) (slots : list slot) (s : slot),
        parse_schedule A = Ok slots -> In s slots ->
        slot_start s <> slot_end s ->
        schedules_collide A A = Ok true).
Proof.
  intros H.
  specialize (H "Mondays, 5:00 PM - 4:00 PM"
                [("Monday", mktime 17 0, mktime 16 0)]
                ("Monday", mktime 17 0, mktime 16 0)).
  assert (Hc : schedules_collide "Mondays, 5:00 PM - 4:00 PM"
                                 "Mondays, 5:00 PM - 4:00 PM" = Ok false)
    by (vm_compute; reflexivity).
  rewrite Hc in H.
  enough (Ok false = Ok true) by discriminate.
  apply H.
  - vm_compute. reflexivity.
  - now left.
  - discriminate.
Qed.

(** C3 (amended). A schedule with a slot whose start is strictly before
    its end collides with itself. *)
Theorem schedule_collides_with_itself (A : string) (slots : list slot) (s : slot) :
  parse_schedule A = Ok slots -> In s slots ->
  time_lt (slot_start s) (slot_end s) = true ->
  schedules_collide A A = Ok true.
Proof.
  intros Hparse Hin Hlt. unfold schedules_collide. rewrite Hparse. simpl.
  f_equal. apply slots_collide_true. exists s, s. repeat split; try assumption.
  destruct s as [[day start_dt] end_dt]. unfold slot_start, slot_end in Hlt.
  simpl in *. now rewrite String.eqb_refl, Hlt.
Qed.

Lemma schedule_collides_with_itself_witness :
  schedules_collide "Wednesdays, 4:00 PM - 6:00 PM"
                    "Wednesdays, 4:00 PM - 6:00 PM" = Ok true.
Proof.
  apply (schedule_collides_with_itself _
           [("Wednesday", mktime 16 0, mktime 18 0)]
           ("Wednesday", mktime 16 0, mktime 18 0)).
  - vm_compute. reflexivity.
  - simpl. left. reflexivity.
  - vm_compute. reflexivity.
Defined.

(** C4. The overlap check is symmetric: on every pair of texts the two
    orders give the same outcome, the same boolean or the same exception. *)
Theorem schedules_collide_sym (A B : string) :
  schedules_collide A B = schedules_collide B A.
Proof.
  unfold schedules_collide.
  destruct (parse_schedule A) as [slots1|e1] eqn:HA;
    destruct (parse_schedule B) as [slots2|e2] eqn:HB; simpl; try reflexivity.
  - f_equal. apply slots_collide_sym.
  - apply parse_schedule_raises in HA, HB. congruence.
Qed.

(** C5. Touching intervals do not collide: when a slot of one schedule ends
    at the time a slot of the other starts, the check answers [False], in
    either order and whatever the days; so it does on the Monday schedules
    4-5 PM and 5-6 PM. *)
Theorem touching_schedules_do_not_collide :
  (forall (A B : string) (slots1 slots2 : list slot) (s1 s2 : slot),
      parse_schedule A = Ok slots1 -> parse_schedule B = Ok slots2 ->
      In s1 slots1 -> In s2 slots2 ->
      slot_end s1 = slot_start s2 ->
      schedules_collide A B = Ok false /\ schedules_collide B A = Ok false) /\
  schedules_collide "Mondays, 4:00 PM - 5:00 PM" "Mondays, 5:00 PM - 6:00 PM"
  = Ok false.
Proof.
  split; [|vm_compute; reflexivity].
  intros A B slots1 slots2 s1 s2 HA HB Hin1 Hin2 Htouch.
  assert (Hc : slots_collide slots1 slots2 = false).
  { destruct (slots_collide slots1 slots2) eqn:Hc; [|reflexivity].
    apply slots_collide_true in Hc as (x1 & x2 & Hx1 & Hx2 & Hov).
    destruct (parse_schedule_uniform _ _ HA) as (st1 & en1 & U1).
    destruct (parse_schedule_uniform _ _ HB) as (st2 & en2 & U2).
    destruct (U1 _ Hin1) as [_ E1], (U2 _ Hin2) as [E2 _].
    destruct (U1 _ Hx1) as [_ F1], (U2 _ Hx2) as [F2 _].
    assert (Heq : slot_start x2 = slot_end x1) by congruence.
    destruct x1 as [[day1 start1] end1], x2 as [[day2 start2] end2].
    unfold slot_start, slot_end in Heq. simpl in Heq, Hov.
    rewrite Heq, time_lt_irrefl, !andb_false_r in Hov. discriminate. }
  unfold schedules_collide. rewrite HA, HB. simpl.
  now rewrite (slots_collide_sym slots2 slots1), Hc.
Qed.

Lemma touching_schedules_do_not_collide_witness :
  schedules_collide "Tuesdays, 2:30 PM - 3:30 PM"
                    "Tuesdays and Thursdays, 3:30 PM - 4:30 PM" = Ok false /\
  schedules_collide "Tuesdays and Thursdays, 3:30 PM - 4:30 PM"
                    "Tuesdays, 2:30 PM - 3:30 PM" = Ok false.
Proof.
  apply (proj1 touching_schedules_do_not_collide
           "Tuesdays, 2:30 PM - 3:30 PM"
           "Tuesdays and Thursdays, 3:30 PM - 4:30 PM"
           [("Tuesday", mktime 14 30, mktime 15 30)]
           [("Tuesday", mktime 15 30, mktime 16 30);
            ("Thursday", mktime 15 30, mktime 16 30)]
           ("Tuesday", mktime 14 30, mktime 15 30)
           ("Tuesday", mktime 15 30, mktime 16 30)).
  - vm_compute. reflexivity.
  - vm_compute. reflexivity.
  - simpl. left. reflexivity.
  - simpl. left. reflexivity.
  - reflexivity.
Defined.

(** * Properties of the signup workflow *)

Lemma contains_In (email : string) (l : list string) :
  contains email l = true <-> In email l.
Proof.
  unfold contains. rewrite existsb_exists. split.
  - intros (x & Hin & Heq). apply String.eqb_eq in Heq. now subst.
  - intros Hin. exists email. split; [assumption | apply String.eqb_refl].
Qed.

Lemma contains_not_In (email : string) (l : list string) :
  contains email l = false <-> ~ In email l.
Proof.
  rewrite <- contains_In. destruct (contains email l); split; congruence.
Qed.

Lemma lookup_In (name : string) (d : Directory) (a : Activity) :
  lookup name d = Some a -> In (name, a) d.
Proof.
  induction d as [|[k b] rest IH]; simpl; [discriminate|].
  destruct (String.eqb_spec k name) as [->|Hne].
  - intros [= ->]. now left.
  - intros H. right. auto.
Qed.

(** What the append does to the association list: the first record stored
    under [name] is replaced, everything around it stays in place. *)
Lemma append_participant_split (name email : string) (d : Directory) (a : Activity) :
  lookup name d = Some a ->
  exists before after,
    d = before ++ (name, a) :: after /\
    lookup name before = None /\
    append_participant name email d = before ++ (name, enrol email a) :: after.
Proof.
  induction d as [|[k b] rest IH]; simpl; [discriminate|].
  destruct (String.eqb_spec k name) as [->|Hne].
  - intros [= ->]. exists [], rest. repeat split.
  - intros H. destruct (IH H) as (before & after & -> & Hnone & ->).
    exists ((k, b) :: before), after. repeat split. simpl.
    destruct (String.eqb_spec k name); [contradiction | assumption].
Qed.

Lemma lookup_append_participant_same (name email : string) (d : Directory)
    (a : Activity) :
  lookup name d = Some a ->
  lookup name (append_participant name email d) = Some (enrol email a).
Proof.
  induction d as [|[k b] rest IH]; simpl; [discriminate|].
  destruct (String.eqb_spec k name) as [->|Hne]; simpl.
  - intros [= ->]. now rewrite String.eqb_refl.
  - destruct (String.eqb_spec k name); [contradiction | exact IH].
Qed.

Lemma lookup_append_participant_other (name other email : string) (d : Directory) :
  other <> name ->
  lookup other (append_participant name email d) = lookup other d.
Proof.
  intros Hne. induction d as [|[k b] rest IH]; simpl; [reflexivity|].
  destruct (String.eqb_spec k name) as [->|Hk]; simpl.
  - destruct (String.eqb_spec name other); [congruence | reflexivity].
  - now rewrite IH.
Qed.

(** The two ways the handler ends. *)
Lemma signup_succeeds_inv (d : Directory) (activity_name email msg : string) :
  fst (signup_for_activity d activity_name email) = Ok msg ->
  exists activity,
    lookup activity_name d = Some activity /\
    ~ In email (participants activity) /\
    check_collisions d activity_name email activity = Ok tt /\
    signup_for_activity d activity_name email
    = (Ok ("Signed up " ++ email ++ " for " ++ activity_name)%string,
       append_participant activity_name email d).
Proof.
  unfold signup_for_activity.
  destruct (lookup activity_name d) as [activity|]; [|discriminate].
  destruct (contains email (participants activity)) eqn:Hc; [discriminate|].
  destruct (check_collisions d activity_name email activity) as [[]|e] eqn:Hloop;
    [|discriminate].
  intros _. exists activity. apply contains_not_In in Hc. repeat split; auto.
Qed.

Lemma signup_fails_unchanged (d : Directory) (activity_name email : string) (e : exn) :
  fst (signup_for_activity d activity_name email) = Raise e ->
  snd (signup_for_activity d activity_name email) = d.
Proof.
  unfold signup_for_activity.
  destruct (lookup activity_name d) as [activity|]; [|reflexivity].
  destruct (contains email (participants activity)); [reflexivity|].
  destruct (check_collisions d activity_name email activity); [discriminate|].
  reflexivity.
Qed.

(** The loop finds nothing when every other enrolment of [email] answers
    [False] to the overlap check. *)
Lemma check_collisions_none (items : Directory) (activity_name email : string)
    (activity : Activity) :
  (forall k b, In (k, b) items -> k <> activity_name ->
               In email (participants b) ->
               schedules_collide (schedule activity) (schedule b) = Ok false) ->
  check_collisions items activity_name email activity = Ok tt.
Proof.
  induction items as [|[k b] rest IH]; intros H; [reflexivity|].
  assert (Hrest : check_collisions rest activity_name email activity = Ok tt)
    by (apply IH; intros k' b' Hin; apply H; now right).
  simpl.
  destruct (String.eqb_spec k activity_name) as [->|Hne]; [assumption|].
  destruct (contains email (participants b)) eqn:Hc; [|assumption].
  rewrite (H k b); [exact Hrest | now left | assumption | now apply contains_In].
Qed.


(** Texts that parse can be compared without an exception. *)
Lemma schedules_collide_Ok (schedule1 schedule2 : string) :
  parses schedule1 = true -> parses schedule2 = true ->
  exists r, schedules_collide schedule1 schedule2 = Ok r.
Proof.
  unfold parses, schedules_collide.
  destruct (parse_schedule schedule1); [|discriminate].
  destruct (parse_schedule schedule2); [|discriminate].
  simpl. eauto.
Qed.

Lemma schedules_parse_In (d : Directory) (k : string) (a : Activity) :
  schedules_parse d = true -> In (k, a) d -> parses (schedule a) = true.
Proof.
  unfold schedules_parse. rewrite forallb_forall. intros H Hin. exact (H _ Hin).
Qed.

Lemma schedules_parse_append_participant (name email : string) (d : Directory) :
  schedules_parse (append_participant name email d) = schedules_parse d.
Proof.
  unfold schedules_parse.
  induction d as [|[k b] rest IH]; simpl; [reflexivity|].
  destruct (String.eqb k name); simpl; [reflexivity | now rewrite IH].
Qed.

(** Every directory the program reaches holds the schedule texts of the
    seed, and none of them makes the parser raise. *)
Lemma reachable_schedules_parse (d : Directory) :
  reachable d -> schedules_parse d = true.
Proof.
  induction 1 as [|d activity_name email _ IH]; [vm_compute; reflexivity|].
  destruct (fst (signup_for_activity d activity_name email)) as [msg|e] eqn:Hout.
  - apply signup_succeeds_inv in Hout as (a & _ & _ & _ & ->). simpl.
    now rewrite schedules_parse_append_participant.
  - now rewrite (signup_fails_unchanged _ _ _ _ Hout).
Qed.

Lemma full_workshop_reachable : reachable full_workshop.
Proof.
  unfold full_workshop.
  assert (H : forall emails d, reachable d ->
            reachable (fold_left
                         (fun d email => snd (signup_for_activity d "Art Workshop" email))
                         emails d)).
  { induction emails as [|email emails IH]; simpl; intros d Hd; [assumption|].
    apply IH. now constructor. }
  apply H. constructor.
Qed.

Lemma In_append_participant_inv (name email : string) (d : Directory)
    (k : string) (b : Activity) :
  In (k, b) (append_participant name email d) ->
  In (k, b) d \/
  (k = name /\ exists a, lookup name d = Some a /\ b = enrol email a).
Proof.
  induction d as [|[k0 a0] rest IH]; simpl; [tauto|].
  destruct (String.eqb_spec k0 name) as [->|Hne]; simpl.
  - intros [[= <- <-] | Hin]; [right; eauto | left; auto].
  - intros [Heq | Hin]; [left; auto|].
    destruct (IH Hin) as [H | (-> & a & Ha & ->)]; [left; auto | right; eauto].
Qed.

Lemma NoDup_snoc (l : list string) (x : string) :
  NoDup l -> ~ In x l -> NoDup (l ++ [x]).
Proof.
  induction 1 as [|y l Hy Hl IH]; simpl; intros Hx.
  - constructor; [tauto | constructor].
  - constructor.
    + rewrite in_app_iff. simpl. intros [H | [H | []]]; [tauto | subst; tauto].
    + apply IH. tauto.
Qed.

Lemma collision_free_spec (d : Directory) (activity_name email : string)
    (activity : Activity) :
  collision_free d activity_name email activity = true ->
  forall k b, In (k, b) d -> k <> activity_name -> In email (participants b) ->
              schedules_collide (schedule activity) (schedule b) = Ok false.
Proof.
  unfold collision_free. rewrite forallb_forall. intros H k b Hin Hne Hmem.
  specialize (H _ Hin). simpl in H.
  destruct (String.eqb_spec k activity_name); [contradiction|].
  apply contains_In in Hmem. rewrite Hmem in H. simpl in H.
  destruct (schedules_collide _ _) as [[|]|]; congruence.
Qed.

Lemma distinct_NoDup (l : list string) : distinct l = true -> NoDup l.
Proof.
  induction l as [|x rest IH]; simpl; [constructor|].
  intros H. apply andb_true_iff in H as [Hx Hrest].
  constructor; [|auto].
  apply contains_not_In. now destruct (contains x rest).
Qed.

Lemma all_distinct_spec (d : Directory) :
  forallb (fun item => distinct (participants (snd item))) d = true ->
  forall k a, In (k, a) d -> NoDup (participants a).
Proof.
  rewrite forallb_forall. intros H k a Hin.
  apply distinct_NoDup. exact (H _ Hin).
Qed.




(** C7. Capacity is never checked.  An activity of the directory, an email
    not on its roster and free of collisions with its other enrolments: the
    signup succeeds and appends the email, and nothing is asked of
    [max_participants]; so it does on a roster that is already full. *)
Theorem signup_never_checks_capacity (d : Directory) (activity_name email : string)
    (activity : Activity) :
  lookup activity_name d = Some activity ->
  ~ In email (participants activity) ->
  (forall k b, In (k, b) d -> k <> activity_name -> In email (participants b) ->
               schedules_collide (schedule activity) (schedule b) = Ok false) ->
  signup_for_activity d activity_name email
  = (Ok ("Signed up " ++ email ++ " for " ++ activity_name)%string,
     append_participant activity_name email d) /\
  lookup activity_name (append_participant activity_name email d)
  = Some (mkActivity (description activity) (schedule activity)
            (max_participants activity) (participants activity ++ [email])).
Proof.
  intros Hlook Hnot Hfree. split.
  - unfold signup_for_activity. rewrite Hlook.
    apply contains_not_In in Hnot. rewrite Hnot.
    now rewrite check_collisions_none.
  - now apply lookup_append_participant_same.
Qed.

Lemma signup_never_checks_capacity_witness :
  lookup "Art Workshop" full_workshop = Some full_art_workshop /\
  (max_participants full_art_workshop
   <= Z.of_nat (List.length (participants full_art_workshop)))%Z /\
  signup_for_activity full_workshop "Art Workshop" "alex@mergington.edu"
  = (Ok "Signed up alex@mergington.edu for Art Workshop",
     append_participant "Art Workshop" "alex@mergington.edu" full_workshop) /\
  lookup "Art Workshop"
    (append_participant "Art Workshop" "alex@mergington.edu" full_workshop)
  = Some (mkActivity (description full_art_workshop) (schedule full_art_workshop)
            (max_participants full_art_workshop)
            (participants full_art_workshop ++ ["alex@mergington.edu"])).
Proof.
  split; [vm_compute; reflexivity|].
  split; [vm_compute; discriminate|].
  apply (signup_never_checks_capacity full_workshop "Art Workshop"
           "alex@mergington.edu" full_art_workshop).
  - vm_compute. reflexivity.
  - apply contains_not_In. vm_compute. reflexivity.
  - apply collision_free_spec. vm_compute. reflexivity.
Defined.

(** C8. A failed signup is atomic: whatever the exception, the directory
    afterwards is the directory before; and signing up again an email that
    is on the roster fails as a duplicate and leaves the roster, hence its
    length, as it was. *)
Theorem failed_signup_is_atomic (d : Directory) (activity_name email : string) :
  (forall e, fst (signup_for_activity d activity_name email) = Raise e ->
             snd (signup_for_activity d activity_name email) = d) /\
  (forall activity,
      lookup activity_name d = Some activity ->
      In email (participants activity) ->
      fst (signup_for_activity d activity_name email)
      = Raise (HTTPException 400 "Student already signed up for this activity") /\
      lookup activity_name (snd (signup_for_activity d activity_name email))
      = Some activity).
Proof.
  split.
  - intros e. apply signup_fails_unchanged.
  - intros activity Hlook Hin. unfold signup_for_activity. rewrite Hlook.
    apply contains_In in Hin. rewrite Hin. simpl. auto.
Qed.

Lemma failed_signup_is_atomic_witness :
  snd (signup_for_activity activities "Programming Class" "ava@mergington.edu")
  = activities /\
  fst (signup_for_activity activities "Chess Club" "daniel@mergington.edu")
  = Raise (HTTPException 400 "Student already signed up for this activity") /\
  lookup "Chess Club"
    (snd (signup_for_activity activities "Chess Club" "daniel@mergington.edu"))
  = Some (mkActivity "Learn strategies and compete in chess tournaments"
            "Fridays, 3:30 PM - 5:00 PM" 12
            ["michael@mergington.edu"; "daniel@mergington.edu"]).
Proof.
  split.
  - apply (proj1 (failed_signup_is_atomic activities "Programming Class"
                    "ava@mergington.edu")
             (HTTPException 400
                (collision_detail "ava@mergington.edu" "Programming Class"
                                  "Art Workshop"))).
    vm_compute. reflexivity.
  - apply (proj2 (failed_signup_is_atomic activities "Chess Club"
                    "daniel@mergington.edu")).
    + vm_compute. reflexivity.
    + simpl. right. left. reflexivity.
Defined.

(** C9. Signups keep rosters free of duplicates: if no roster has a
    repeated email before the request, none has one after it; and after a
    successful signup the email occurs exactly once on the roster of the
    target. *)
Theorem signup_preserves_no_duplicates (d : Directory) (activity_name email : string) :
  ((forall k a, In (k, a) d -> NoDup (participants a)) ->
   forall k a, In (k, a) (snd (signup_for_activity d activity_name email)) ->
               NoDup (participants a)) /\
  (forall msg,
      fst (signup_for_activity d activity_name email) = Ok msg ->
      exists activity,
        lookup activity_name (snd (signup_for_activity d activity_name email))
        = Some activity /\
        count_occ string_dec (participants activity) email = 1%nat).
Proof.
  split.
  - intros Hinv k a.
    destruct (fst (signup_for_activity d activity_name email)) as [msg|e] eqn:Hout.
    + apply signup_succeeds_inv in Hout as (target & Hlook & Hnot & _ & ->). simpl.
      intros Hin.
      apply In_append_participant_inv in Hin as [Hin | (-> & a0 & Ha0 & ->)];
        [now eauto|].
      assert (a0 = target) by congruence. subst a0. simpl.
      apply NoDup_snoc; [|assumption].
      eapply Hinv, lookup_In, Hlook.
    + rewrite (signup_fails_unchanged _ _ _ _ Hout). apply Hinv.
  - intros msg Hout.
    apply signup_succeeds_inv in Hout as (target & Hlook & Hnot & _ & ->). simpl.
    exists (enrol email target). split.
    + now apply lookup_append_participant_same.
    + simpl. rewrite count_occ_app. simpl.
      apply (count_occ_not_In string_dec) in Hnot. rewrite Hnot.
      now destruct (string_dec email email).
Qed.

Lemma signup_preserves_no_duplicates_witness :
  (forall k a,
      In (k, a) (snd (signup_for_activity activities "Chess Club"
                        "alex@mergington.edu")) ->
      NoDup (participants a)) /\
  (exists activity,
      lookup "Chess Club"
        (snd (signup_for_activity activities "Chess Club" "alex@mergington.edu"))
      = Some activity /\
      count_occ string_dec (participants activity) "alex@mergington.edu" = 1%nat).
Proof.
  split.
  - apply (proj1 (signup_preserves_no_duplicates activities "Chess Club"
                    "alex@mergington.edu")).
    apply all_distinct_spec. vm_compute. reflexivity.
  - apply (proj2 (signup_preserves_no_duplicates activities "Chess Club"
                    "alex@mergington.edu")
             "Signed up alex@mergington.edu for Chess Club").
    vm_compute. reflexivity.
Defined.

(** C10. The only effect of a successful signup is the append: the record
    of the target keeps its place, its name, description, schedule and
    capacity, and gains the email at the end of its roster; every other
    record of the directory is the one it was. *)
Theorem successful_signup_frame (d : Directory) (activity_name email msg : string) :
  fst (signup_for_activity d activity_name email) = Ok msg ->
  exists before activity after,
    d = before ++ (activity_name, activity) :: after /\
    lookup activity_name before = None /\
    snd (signup_for_activity d activity_name email)
    = before
      ++ (activity_name,
          mkActivity (description activity) (schedule activity)
            (max_participants activity) (participants activity ++ [email]))
      :: after /\
    (forall other, other <> activity_name ->
       lookup other (snd (signup_for_activity d activity_name email))
       = lookup other d).
Proof.
  intros Hout.
  apply signup_succeeds_inv in Hout as (activity & Hlook & _ & _ & ->). simpl.
  destruct (append_participant_split activity_name email d activity Hlook)
    as (before & after & Hd & Hnone & Happ).
  exists before, activity, after. repeat split; try assumption.
  intros other Hne. now apply lookup_append_participant_other.
Qed.

Lemma successful_signup_frame_witness :
  exists before activity after,
    activities = before ++ ("Chess Club", activity) :: after /\
    lookup "Chess Club" before = None /\
    snd (signup_for_activity activities "Chess Club" "alex@mergington.edu")
    = before
      ++ ("Chess Club",
          mkActivity (description activity) (schedule activity)
            (max_participants activity)
            (participants activity ++ ["alex@mergington.edu"]))
      :: after /\
    (forall other, other <> "Chess Club" ->
       lookup other
         (snd (signup_for_activity activities "Chess Club" "alex@mergington.edu"))
       = lookup other activities).
Proof.
  apply (successful_signup_frame activities "Chess Club" "alex@mergington.edu"
           "Signed up alex@mergington.edu for Chess Club").
  vm_compute. reflexivity.
Defined.

(** * Further properties of the signup workflow *)

(** Same outcome in both orders; shared by the lemmas below. *)
Lemma schedules_collide_swap (A B : string) :
  schedules_collide A B = schedules_collide B A.
Proof.
  unfold schedules_collide.
  destruct (parse_schedule A) as [slots1|e1] eqn:HA;
    destruct (parse_schedule B) as [slots2|e2] eqn:HB; simpl; try reflexivity.
  - f_equal. apply slots_collide_sym.
  - apply parse_schedule_raises in HA, HB. congruence.
Qed.

(** What a completed loop has checked. *)
Lemma check_collisions_Ok_inv (items : Directory) (activity_name email : string)
    (activity : Activity) :
  check_collisions items activity_name email activity = Ok tt ->
  forall k b, In (k, b) items -> k <> activity_name ->
              In email (participants b) ->
              schedules_collide (schedule activity) (schedule b) = Ok false.
Proof.
  induction items as [|[k0 b0] rest IH]; simpl; intros Hloop k b Hin Hne Hmem;
    [contradiction|].
  destruct (String.eqb_spec k0 activity_name) as [Hk0|Hk0].
  - destruct Hin as [[= <- <-]|Hin]; [contradiction | eauto].
  - destruct (contains email (participants b0)) eqn:Hc.
    + destruct (schedules_collide (schedule activity) (schedule b0))
        as [[|]|e] eqn:Hcol; simpl in Hloop; try discriminate.
      destruct Hin as [[= <- <-]|Hin]; [assumption | eauto].
    + destruct Hin as [[= <- <-]|Hin]; [|eauto].
      apply contains_In in Hmem. congruence.
Qed.

(** The loop ends in one of two ways when no overlap check raises. *)
Lemma check_collisions_outcomes (items : Directory) (activity_name email : string)
    (activity : Activity) :
  (forall k b, In (k, b) items ->
               exists r, schedules_collide (schedule activity) (schedule b) = Ok r) ->
  check_collisions items activity_name email activity = Ok tt \/
  exists other_name other,
    In (other_name, other) items /\ other_name <> activity_name /\
    In email (participants other) /\
    schedules_collide (schedule activity) (schedule other) = Ok true /\
    check_collisions items activity_name email activity
    = Raise (HTTPException 400 (collision_detail email activity_name other_name)).
Proof.
  induction items as [|[k0 b0] rest IH]; simpl; intros Hok; [now left|].
  assert (Hrest : check_collisions rest activity_name email activity = Ok tt \/
            exists other_name other,
              ((k0, b0) = (other_name, other) \/ In (other_name, other) rest) /\
              other_name <> activity_name /\
              In email (participants other) /\
              schedules_collide (schedule activity) (schedule other) = Ok true /\
              check_collisions rest activity_name email activity
              = Raise (HTTPException 400
                         (collision_detail email activity_name other_name))).
  { destruct IH as [H | (o & ob & Hin & H)]; [now eauto | now left|].
    right. exists o, ob. split; [now right | exact H]. }
  destruct (String.eqb_spec k0 activity_name) as [Hk0|Hk0]; [exact Hrest|].
  destruct (contains email (participants b0)) eqn:Hc; [|exact Hrest].
  destruct (Hok k0 b0 (or_introl eq_refl)) as ([|] & Hr); rewrite Hr; simpl.
  - right. exists k0, b0. repeat split; try assumption.
    + now left.
    + now apply contains_In.
  - exact Hrest.
Qed.

(** X1. The answers of the handler.  On every directory the program reaches,
    a request ends in one of four ways: the success message, 404
    for an unknown activity, 400 for a duplicate, 400 naming an activity of
    the directory that holds the email and collides.  In particular no
    [ValueError] escapes the handler. *)
Theorem signup_outcomes (d : Directory) (activity_name email : string) :
  reachable d ->
  let outcome := fst (signup_for_activity d activity_name email) in
  outcome = Ok ("Signed up " ++ email ++ " for " ++ activity_name)%string \/
  outcome = Raise (HTTPException 404 "Activity not found") \/
  outcome = Raise (HTTPException 400 "Student already signed up for this activity") \/
  exists other_name other,
    In (other_name, other) d /\ other_name <> activity_name /\
    In email (participants other) /\
    outcome = Raise (HTTPException 400
                       (collision_detail email activity_name other_name)).
Proof.
  intros Hd. apply reachable_schedules_parse in Hd.
  unfold signup_for_activity.
  destruct (lookup activity_name d) as [activity|] eqn:Hlook; [|simpl; auto].
  destruct (contains email (participants activity)); [simpl; auto|].
  destruct (check_collisions_outcomes d activity_name email activity)
    as [Hloop | (o & ob & Hin & Hne & Hmem & _ & Hloop)].
  - intros k b Hin. apply schedules_collide_Ok.
    + eapply schedules_parse_In; [exact Hd | eapply lookup_In; eassumption].
    + eapply schedules_parse_In; eassumption.
  - rewrite Hloop. simpl. auto.
  - rewrite Hloop. simpl. right. right. right. exists o, ob. auto.
Qed.

Lemma signup_outcomes_witness :
  let outcome := fst (signup_for_activity full_workshop "Debate Team"
                        "emma@mergington.edu") in
  outcome = Ok "Signed up emma@mergington.edu for Debate Team" \/
  outcome = Raise (HTTPException 404 "Activity not found") \/
  outcome = Raise (HTTPException 400 "Student already signed up for this activity") \/
  exists other_name other,
    In (other_name, other) full_workshop /\ other_name <> "Debate Team" /\
    In "emma@mergington.edu" (participants other) /\
    outcome = Raise (HTTPException 400
                       (collision_detail "emma@mergington.edu" "Debate Team"
                                         other_name)).
Proof.
  apply (signup_outcomes full_workshop "Debate Team" "emma@mergington.edu").
  apply full_workshop_reachable.
Defined.

Lemma roster_grown_refl (a : Activity) : roster_grown a a.
Proof.
  repeat split. exists []. now rewrite app_nil_r.
Qed.

Lemma roster_grown_trans (a b c : Activity) :
  roster_grown a b -> roster_grown b c -> roster_grown a c.
Proof.
  intros (Hd1 & Hs1 & Hm1 & j1 & Hp1) (Hd2 & Hs2 & Hm2 & j2 & Hp2).
  repeat split; try congruence.
  exists (j1 ++ j2). now rewrite Hp2, Hp1, app_assoc.
Qed.

Lemma roster_grown_enrol (email : string) (a : Activity) :
  roster_grown a (enrol email a).
Proof.
  repeat split. now exists [email].
Qed.

Lemma directory_grown_refl (d : Directory) : directory_grown d d.
Proof.
  induction d as [|item rest IH]; constructor; [|exact IH].
  split; [reflexivity | apply roster_grown_refl].
Qed.

Lemma directory_grown_trans (d1 d2 d3 : Directory) :
  directory_grown d1 d2 -> directory_grown d2 d3 -> directory_grown d1 d3.
Proof.
  intros H12. revert d3.
  induction H12 as [|i1 i2 r1 r2 [Hk12 Hg12] _ IH]; intros d3 H23;
    inversion H23 as [|i2' i3 r2' r3 [Hk23 Hg23] Hrest]; subst; constructor.
  - split; [congruence | eapply roster_grown_trans; eassumption].
  - now apply IH.
Qed.

Lemma directory_grown_append_participant (name email : string) (d : Directory) :
  directory_grown d (append_participant name email d).
Proof.
  induction d as [|[k a] rest IH]; simpl; [constructor|].
  destruct (String.eqb k name).
  - constructor; [|apply directory_grown_refl].
    split; [reflexivity | apply roster_grown_enrol].
  - constructor; [|exact IH].
    split; [reflexivity | apply roster_grown_refl].
Qed.

(** One request, whatever its outcome, only ever grows a roster. *)
Lemma signup_grows (d : Directory) (activity_name email : string) :
  directory_grown d (snd (signup_for_activity d activity_name email)).
Proof.
  destruct (fst (signup_for_activity d activity_name email)) as [msg|e] eqn:Hout.
  - apply signup_succeeds_inv in Hout as (a & _ & _ & _ & ->). simpl.
    apply directory_grown_append_participant.
  - rewrite (signup_fails_unchanged _ _ _ _ Hout). apply directory_grown_refl.
Qed.

(** X2. No deletion and no update.  In every directory the program reaches
    the activities are those of the seed, under the same names and in the
    same order, with the description, schedule and capacity of the seed;
    every roster is the seed roster followed by the students who joined. *)
Theorem reachable_directory_grown (d : Directory) :
  reachable d -> directory_grown activities d.
Proof.
  induction 1 as [|d activity_name email _ IH].
  - apply directory_grown_refl.
  - eapply directory_grown_trans; [exact IH | apply signup_grows].
Qed.

Lemma reachable_directory_grown_witness : directory_grown activities full_workshop.
Proof.
  apply (reachable_directory_grown full_workshop). apply full_workshop_reachable.
Defined.

(** X3. A second identical request.  After a successful signup the same
    request is refused as a duplicate and changes nothing. *)
Theorem signup_twice_is_refused (d : Directory) (activity_name email msg : string) :
  fst (signup_for_activity d activity_name email) = Ok msg ->
  signup_for_activity (snd (signup_for_activity d activity_name email))
                      activity_name email
  = (Raise (HTTPException 400 "Student already signed up for this activity"),
     snd (signup_for_activity d activity_name email)).
Proof.
  intros Hout.
  apply signup_succeeds_inv in Hout as (a & Hlook & _ & _ & ->). simpl.
  unfold signup_for_activity.
  rewrite (lookup_append_participant_same _ _ _ _ Hlook). simpl.
  assert (Hin : contains email (participants a ++ [email]) = true).
  { apply contains_In, in_or_app. right. now left. }
  now rewrite Hin.
Qed.

Lemma signup_twice_is_refused_witness :
  signup_for_activity
    (snd (signup_for_activity activities "Chess Club" "alex@mergington.edu"))
    "Chess Club" "alex@mergington.edu"
  = (Raise (HTTPException 400 "Student already signed up for this activity"),
     snd (signup_for_activity activities "Chess Club" "alex@mergington.edu")).
Proof.
  apply (signup_twice_is_refused activities "Chess Club" "alex@mergington.edu"
           "Signed up alex@mergington.edu for Chess Club").
  vm_compute. reflexivity.
Defined.

Lemma lookup_append_participant (name email other : string) (d : Directory) :
  lookup other (append_participant name email d)
  = if String.eqb other name
    then option_map (enrol email) (lookup name d)
    else lookup other d.
Proof.
  destruct (String.eqb_spec other name) as [->|Hne].
  - destruct (lookup name d) as [a|] eqn:Hlook; simpl.
    + now apply lookup_append_participant_same.
    + induction d as [|[k b] rest IH]; simpl in *; [reflexivity|].
      destruct (String.eqb_spec k name); [discriminate|].
      simpl. destruct (String.eqb_spec k name); [contradiction | auto].
  - now apply lookup_append_participant_other.
Qed.

(** One request keeps the directory free of double bookings. *)
Lemma signup_keeps_no_double_booking (d : Directory) (activity_name email : string) :
  no_double_booking d ->
  no_double_booking (snd (signup_for_activity d activity_name email)).
Proof.
  intros Hinv.
  destruct (fst (signup_for_activity d activity_name email)) as [msg|e] eqn:Hout;
    [|now rewrite (signup_fails_unchanged _ _ _ _ Hout)].
  apply signup_succeeds_inv in Hout as (a & Hlook & Hnot & Hloop & ->). simpl.
  pose proof (check_collisions_Ok_inv _ _ _ _ Hloop) as Hfree.
  intros n1 n2 a1 a2 x Hne H1 H2 Hx1 Hx2.
  rewrite lookup_append_participant in H1, H2.
  destruct (String.eqb_spec n1 activity_name) as [->|Hn1];
    destruct (String.eqb_spec n2 activity_name) as [->|Hn2];
    try contradiction.
  - rewrite Hlook in H1. injection H1 as <-. simpl in *.
    apply in_app_or in Hx1 as [Hx1 | [<- | []]].
    + apply (Hinv activity_name n2 a a2 x); assumption.
    + apply (Hfree n2 a2); auto using lookup_In.
  - rewrite Hlook in H2. injection H2 as <-. simpl in *.
    apply in_app_or in Hx2 as [Hx2 | [<- | []]].
    + apply (Hinv n1 activity_name a1 a x); assumption.
    + rewrite schedules_collide_swap. apply (Hfree n1 a1); auto using lookup_In.
  - apply (Hinv n1 n2 a1 a2 x); assumption.
Qed.

Lemma no_double_booking_b_spec (d : Directory) :
  no_double_booking_b d = true -> no_double_booking d.
Proof.
  unfold no_double_booking_b. rewrite forallb_forall.
  intros H n1 n2 a1 a2 x Hne H1 H2 Hx1 Hx2.
  apply lookup_In in H1, H2.
  specialize (H _ H1). rewrite forallb_forall in H. specialize (H _ H2).
  simpl in H.
  destruct (String.eqb_spec n1 n2); [contradiction|]. simpl in H.
  rewrite forallb_forall in H. specialize (H _ Hx1).
  apply contains_In in Hx2. rewrite Hx2 in H. simpl in H.
  destruct (schedules_collide _ _) as [[|]|]; congruence.
Qed.

(** X4. No double booking.  In every directory the program reaches, two
    different activities that share a student have schedules on which the
    overlap check answers [False]. *)
Theorem reachable_no_double_booking (d : Directory) :
  reachable d -> no_double_booking d.
Proof.
  induction 1 as [|d activity_name email _ IH].
  - apply no_double_booking_b_spec. vm_compute. reflexivity.
  - now apply signup_keeps_no_double_booking.
Qed.

Lemma reachable_no_double_booking_witness :
  schedules_collide "Wednesdays, 4:00 PM - 6:00 PM" "Fridays, 3:30 PM - 5:00 PM"
  = Ok false.
Proof.
  apply (reachable_no_double_booking
           (snd (signup_for_activity activities "Chess Club" "alex@mergington.edu"))
           (reachable_signup _ _ _ reachable_seed)
           "Basketball Team" "Chess Club"
           (mkActivity "Join the school basketball team and compete in local leagues"
              "Wednesdays, 4:00 PM - 6:00 PM" 15
              ["alex@mergington.edu"; "jordan@mergington.edu"])
           (mkActivity "Learn strategies and compete in chess tournaments"
              "Fridays, 3:30 PM - 5:00 PM" 12
              ["michael@mergington.edu"; "daniel@mergington.edu";
               "alex@mergington.edu"])
           "alex@mergington.edu").
  - discriminate.
  - vm_compute. reflexivity.
  - vm_compute. reflexivity.
  - simpl. left. reflexivity.
  - simpl. right. right. left. reflexivity.
Defined.

Lemma contains_snoc_other (email other : string) (l : list string) :
  email <> other -> contains email (l ++ [other]) = contains email l.
Proof.
  intros Hne. unfold contains. rewrite existsb_app. simpl.
  destruct (String.eqb_spec email other); [contradiction|].
  now rewrite !orb_false_r.
Qed.

(** The loop reads nothing of the target but its schedule. *)
Lemma check_collisions_schedule_only (items : Directory)
    (activity_name email : string) (a a' : Activity) :
  schedule a' = schedule a ->
  check_collisions items activity_name email a'
  = check_collisions items activity_name email a.
Proof.
  intros Hs. induction items as [|[k b] rest IH]; simpl; [reflexivity|].
  now rewrite Hs, IH.
Qed.

(** The loop for one student does not see the enrolment of another. *)
Lemma check_collisions_append_other (items : Directory)
    (activity_name email other_activity other_email : string) (a : Activity) :
  email <> other_email ->
  check_collisions (append_participant other_activity other_email items)
                   activity_name email a
  = check_collisions items activity_name email a.
Proof.
  intros Hne. induction items as [|[k b] rest IH]; simpl; [reflexivity|].
  destruct (String.eqb k other_activity); simpl.
  - now rewrite contains_snoc_other.
  - now rewrite IH.
Qed.

Lemma signup_snd (d : Directory) (activity_name email : string) :
  snd (signup_for_activity d activity_name email)
  = match fst (signup_for_activity d activity_name email) with
    | Ok _ => append_participant activity_name email d
    | Raise _ => d
    end.
Proof.
  unfold signup_for_activity.
  destruct (lookup activity_name d) as [a|]; [|reflexivity].
  destruct (contains email (participants a)); [reflexivity|].
  now destruct (check_collisions d activity_name email a).
Qed.

(** The answer to a student is the same before and after a request of
    another student. *)
Lemma signup_outcome_independent (d : Directory)
    (name1 name2 email1 email2 : string) :
  email1 <> email2 ->
  fst (signup_for_activity (snd (signup_for_activity d name2 email2)) name1 email1)
  = fst (signup_for_activity d name1 email1).
Proof.
  intros Hne.
  destruct (fst (signup_for_activity d name2 email2)) as [msg|e] eqn:Hout;
    [|now rewrite (signup_fails_unchanged _ _ _ _ Hout)].
  apply signup_succeeds_inv in Hout as (a2 & Hlook2 & _ & _ & ->). simpl.
  unfold signup_for_activity.
  rewrite lookup_append_participant.
  destruct (String.eqb_spec name1 name2) as [->|Hn].
  - rewrite Hlook2. simpl. rewrite contains_snoc_other by assumption.
    destruct (contains email1 (participants a2)); [reflexivity|].
    rewrite check_collisions_append_other by assumption.
    rewrite (check_collisions_schedule_only _ _ _ a2 (enrol email2 a2)) by reflexivity.
    now destruct (check_collisions d name2 email1 a2).
  - destruct (lookup name1 d) as [a1|]; [|reflexivity].
    destruct (contains email1 (participants a1)); [reflexivity|].
    rewrite check_collisions_append_other by assumption.
    now destruct (check_collisions d name1 email1 a1).
Qed.

Lemma append_participant_comm (name1 name2 email1 email2 : string) (d : Directory) :
  name1 <> name2 ->
  append_participant name1 email1 (append_participant name2 email2 d)
  = append_participant name2 email2 (append_participant name1 email1 d).
Proof.
  intros Hne. induction d as [|[k a] rest IH]; simpl; [reflexivity|].
  destruct (String.eqb_spec k name1) as [E1|H1];
    destruct (String.eqb_spec k name2) as [E2|H2]; simpl.
  - congruence.
  - rewrite E1, String.eqb_refl.
    destruct (String.eqb_spec name1 name2); [contradiction | reflexivity].
  - rewrite E2, String.eqb_refl.
    destruct (String.eqb_spec name2 name1); [congruence | reflexivity].
  - destruct (String.eqb_spec k name1); [contradiction|].
    destruct (String.eqb_spec k name2); [contradiction|].
    now rewrite IH.
Qed.

(** X5. Requests of different students do not interfere.  The answer to a
    request is the same whether or not a request of another student was
    served first; and when the two requests name different activities, the
    directory after both is the same in either order. *)
Theorem signups_of_different_students_commute (d : Directory)
    (name1 name2 email1 email2 : string) :
  email1 <> email2 ->
  fst (signup_for_activity (snd (signup_for_activity d name2 email2)) name1 email1)
  = fst (signup_for_activity d name1 email1) /\
  (name1 <> name2 ->
   snd (signup_for_activity (snd (signup_for_activity d name2 email2)) name1 email1)
   = snd (signup_for_activity (snd (signup_for_activity d name1 email1)) name2 email2)).
Proof.
  intros Hne. split; [now apply signup_outcome_independent|].
  intros Hn.
  rewrite (signup_snd (snd (signup_for_activity d name2 email2))),
          (signup_snd (snd (signup_for_activity d name1 email1))).
  rewrite (signup_outcome_independent d name1 name2) by assumption.
  rewrite (signup_outcome_independent d name2 name1) by congruence.
  rewrite (signup_snd d name1), (signup_snd d name2).
  destruct (fst (signup_for_activity d name1 email1)),
           (fst (signup_for_activity d name2 email2)); try reflexivity.
  now apply append_participant_comm.
Qed.

Lemma signups_of_different_students_commute_witness :
  fst (signup_for_activity
         (snd (signup_for_activity activities "Chess Club" "alex@mergington.edu"))
         "Programming Class" "ava@mergington.edu")
  = fst (signup_for_activity activities "Programming Class" "ava@mergington.edu") /\
  snd (signup_for_activity
         (snd (signup_for_activity activities "Chess Club" "alex@mergington.edu"))
         "Math Club" "mia@mergington.edu")
  = snd (signup_for_activity
           (snd (signup_for_activity activities "Math Club" "mia@mergington.edu"))
           "Chess Club" "alex@mergington.edu").
Proof.
  split.
  - apply (proj1 (signups_of_different_students_commute activities
                    "Programming Class" "Chess Club"
                    "ava@mergington.edu" "alex@mergington.edu"
                    ltac:(discriminate))).
  - apply (proj2 (signups_of_different_students_commute activities
                    "Math Club" "Chess Club"
                    "mia@mergington.edu" "alex@mergington.edu"
                    ltac:(discriminate))).
    discriminate.
Defined.

(** * Further properties of the overlap check *)

Lemma slots_collide_nil_r (slots : list slot) : slots_collide slots [] = false.
Proof.
  unfold slots_collide. induction slots as [|s rest IH]; simpl; auto.
Qed.

(** A schedule without slots yields [False] against any text that parses. *)
Lemma slotless_collide (A B : string) (slots : list slot) :
  parse_schedule A = Ok [] -> parse_schedule B = Ok slots ->
  schedules_collide A B = Ok false /\ schedules_collide B A = Ok false.
Proof.
  intros HA HB. unfold schedules_collide. rewrite HA, HB. simpl.
  now rewrite slots_collide_nil_r.
Qed.

(** X6. Different days never collide.  When no slot of one schedule falls
    on a day of the other, the check answers [False], whatever the times. *)
Theorem schedules_on_different_days (A B : string) (slots1 slots2 : list slot) :
  parse_schedule A = Ok slots1 -> parse_schedule B = Ok slots2 ->
  (forall s1 s2, In s1 slots1 -> In s2 slots2 -> slot_day s1 <> slot_day s2) ->
  schedules_collide A B = Ok false.
Proof.
  intros HA HB Hdays. unfold schedules_collide. rewrite HA, HB. simpl. f_equal.
  destruct (slots_collide slots1 slots2) eqn:Hc; [|reflexivity].
  apply slots_collide_true in Hc as (s1 & s2 & H1 & H2 & Hov).
  specialize (Hdays s1 s2 H1 H2).
  destruct s1 as [[day1 start1] end1], s2 as [[day2 start2] end2].
  unfold slot_day in Hdays. simpl in *.
  destruct (String.eqb_spec day1 day2); [contradiction | discriminate].
Qed.

Lemma schedules_on_different_days_witness :
  schedules_collide "Mondays, 4:00 PM - 5:30 PM"
                    "Tuesdays and Thursdays, 3:30 PM - 4:30 PM" = Ok false.
Proof.
  apply (schedules_on_different_days
           "Mondays, 4:00 PM - 5:30 PM" "Tuesdays and Thursdays, 3:30 PM - 4:30 PM"
           [("Monday", mktime 16 0, mktime 17 30)]
           [("Tuesday", mktime 15 30, mktime 16 30);
            ("Thursday", mktime 15 30, mktime 16 30)]).
  - vm_compute. reflexivity.
  - vm_compute. reflexivity.
  - simpl. intros s1 s2 [<- | []] [<- | [<- | []]]; discriminate.
Defined.

(** X7. Self-collision, exactly.  A schedule collides with itself if and
    only if one of its slots starts strictly before it ends. *)
Theorem self_collision_iff (A : string) (slots : list slot) :
  parse_schedule A = Ok slots ->
  (schedules_collide A A = Ok true <->
   exists s, In s slots /\ time_lt (slot_start s) (slot_end s) = true).
Proof.
  intros HA. unfold schedules_collide. rewrite HA. simpl. split.
  - intros [= Hc]. apply slots_collide_true in Hc as (s1 & s2 & H1 & H2 & Hov).
    destruct (parse_schedule_uniform _ _ HA) as (st & en & U).
    destruct (U _ H1) as [E1 F1], (U _ H2) as [E2 F2].
    exists s1. split; [assumption|].
    destruct s1 as [[day1 start1] end1], s2 as [[day2 start2] end2].
    unfold slot_start, slot_end in *. simpl in *. subst.
    apply andb_true_iff in Hov as [_ Hov].
    now apply andb_true_iff in Hov as [Hov _].
  - intros (s & Hin & Hlt). f_equal. apply slots_collide_true.
    exists s, s. repeat split; try assumption.
    destruct s as [[day start_dt] end_dt]. unfold slot_start, slot_end in Hlt.
    simpl in *. now rewrite String.eqb_refl, Hlt.
Qed.

Lemma self_collision_iff_witness :
  schedules_collide "Fridays, 3:30 PM - 5:00 PM" "Fridays, 3:30 PM - 5:00 PM"
  = Ok true.
Proof.
  apply (proj2 (self_collision_iff "Fridays, 3:30 PM - 5:00 PM"
                  [("Friday", mktime 15 30, mktime 17 0)]
                  ltac:(vm_compute; reflexivity))).
  exists ("Friday", mktime 15 30, mktime 17 0). split.
  - simpl. left. reflexivity.
  - vm_compute. reflexivity.
Defined.

(** X8. An activity whose schedule text yields no slot is open to every
    student who is not on its roster, whatever else the student attends:
    the collision guard cannot refuse it. *)
Theorem signup_for_slotless_activity (d : Directory) (activity_name email : string)
    (activity : Activity) :
  reachable d ->
  lookup activity_name d = Some activity ->
  parse_schedule (schedule activity) = Ok [] ->
  ~ In email (participants activity) ->
  signup_for_activity d activity_name email
  = (Ok ("Signed up " ++ email ++ " for " ++ activity_name)%string,
     append_participant activity_name email d).
Proof.
  intros Hd Hlook Hparse Hnot. apply reachable_schedules_parse in Hd.
  unfold signup_for_activity. rewrite Hlook.
  apply contains_not_In in Hnot. rewrite Hnot.
  rewrite check_collisions_none; [reflexivity|].
  intros k b Hin _ _.
  pose proof (schedules_parse_In _ _ _ Hd Hin) as Hb. unfold parses in Hb.
  destruct (parse_schedule (schedule b)) as [slots|] eqn:Hpb; [|discriminate].
  exact (proj1 (slotless_collide _ _ _ Hparse Hpb)).
Qed.

Lemma signup_for_slotless_activity_witness :
  signup_for_activity activities "Gym Class" "ethan@mergington.edu"
  = (Ok "Signed up ethan@mergington.edu for Gym Class",
     append_participant "Gym Class" "ethan@mergington.edu" activities).
Proof.
  apply (signup_for_slotless_activity activities "Gym Class" "ethan@mergington.edu"
           (mkActivity "Physical education and sports activities"
              "Mondays, Wednesdays, Fridays, 2:00 PM - 3:00 PM" 30
              ["john@mergington.edu"; "olivia@mergington.edu"])).
  - apply reachable_seed.
  - vm_compute. reflexivity.
  - vm_compute. reflexivity.
  - simpl. intros [H | [H | []]]; discriminate.
Defined.

(** * Further properties of the parser *)

(** X9. The fallback branch is dead.  It tests again the text that has just
    failed the time pattern, so [parse_schedule] computes on every input
    what its first branch alone computes. *)
Theorem parse_schedule_fallback_is_dead (schedule_str : string) :
  parse_schedule schedule_str = parse_schedule_first_branch schedule_str.
Proof.
  unfold parse_schedule, parse_schedule_first_branch. cbv zeta.
  destruct (1 <? _)%nat eqn:Hlen.
  - destruct (time_match (nth 1 _ "")) as [[start_str end_str]|] eqn:Hm;
      reflexivity.
  - destruct (time_match "") as [[start_str end_str]|]; reflexivity.
Qed.

Lemma valid_clock_cases (c : clock) :
  valid_clock c = true ->
  In (clock_hour c) (seq 1 12) /\ In (clock_minute c) (seq 0 60).
Proof.
  unfold valid_clock. rewrite !andb_true_iff, !Nat.leb_le.
  intros [[H1 H2] H3]. split; apply in_seq; lia.
Qed.

Ltac clock_cases c Hv :=
  let h := fresh "h" in
  let m := fresh "m" in
  let pm := fresh "pm" in
  let padded := fresh "padded" in
  let Hh := fresh "Hh" in
  let Hm := fresh "Hm" in
  apply valid_clock_cases in Hv as [Hh Hm];
  destruct c as [h m pm padded]; simpl in Hh, Hm;
  repeat (destruct Hh as [<-|Hh]); [..|contradiction];
  repeat (destruct Hm as [<-|Hm]); try contradiction;
  destruct pm, padded.

(** The time pattern consumes exactly the text of a clock reading. *)
Lemma show_clock_matches (c : clock) (rest : string) :
  valid_clock c = true ->
  Re.matches time_re (show_clock c ++ rest) = [(show_clock c, rest)].
Proof.
  intros Hv. clock_cases c Hv; vm_compute; reflexivity.
Qed.

(** [strptime] reads the text of a clock reading as the time it denotes. *)
Lemma strptime_show_clock (c : clock) :
  valid_clock c = true ->
  Strptime.strptime (show_clock c) = Ok (time_of_clock c).
Proof.
  intros Hv. clock_cases c Hv; vm_compute; reflexivity.
Qed.

Lemma show_clock_comma_free (c : clock) :
  valid_clock c = true -> comma_free (show_clock c) = true.
Proof.
  intros Hv. clock_cases c Hv; vm_compute; reflexivity.
Qed.

Lemma string_app_nil_r (s : string) : (s ++ "")%string = s.
Proof. induction s as [|c s IH]; simpl; [reflexivity | now rewrite IH]. Qed.

Lemma string_app_assoc (s1 s2 s3 : string) :
  ((s1 ++ s2) ++ s3)%string = (s1 ++ (s2 ++ s3))%string.
Proof. induction s1 as [|c s1 IH]; simpl; [reflexivity | now rewrite IH]. Qed.

Lemma comma_free_app (s1 s2 : string) :
  comma_free (s1 ++ s2) = comma_free s1 && comma_free s2.
Proof.
  induction s1 as [|c s1 IH]; simpl; [reflexivity|].
  now rewrite IH, andb_assoc.
Qed.
Lemma prefix_nil (s : string) : prefix "" s = true.
Proof. now destruct s. Qed.

Lemma prefix_cons (a b : ascii) (s1 s2 : string) :
  prefix (String a s1) (String b s2)
  = if ascii_dec a b then prefix s1 s2 else false.
Proof. reflexivity. Qed.

(** [", "] starts at the head of a text exactly when its first two
    characters are a comma and a space. *)
Lemma prefix_comma_space (c : ascii) (s : string) :
  prefix ", " (String c s)
  = Ascii.eqb c ","
    && match s with
       | String c' _ => Ascii.eqb c' " "
       | EmptyString => false
       end.
Proof.
  rewrite prefix_cons.
  destruct (ascii_dec "," c) as [<-|Hc].
  - destruct s as [|c' s']; [reflexivity|].
    rewrite prefix_cons, prefix_nil.
    destruct (ascii_dec " " c') as [<-|Hc']; [reflexivity|].
    cbn [andb Ascii.eqb]. symmetry.
    change (Ascii.eqb c' " " = false). apply Ascii.eqb_neq. congruence.
  - replace (Ascii.eqb c ",") with false; [reflexivity|].
    symmetry. apply Ascii.eqb_neq. congruence.
Qed.

(** Splitting at the first [", "], when the text before it has none. *)
Lemma split_from_first_separator (days_text more cur : string) :
  occurs ", " days_text = false ->
  Py.split_from ", " 0 cur (days_text ++ ", " ++ more)
  = (cur ++ days_text)%string :: Py.split_from ", " 0 "" more.
Proof.
  revert cur. induction days_text as [|c rest IH]; intros cur Hocc.
  - rewrite string_app_nil_r.
    change (("" ++ ", " ++ more)%string) with (String "," (String " " more)).
    cbn [Py.split_from]. rewrite prefix_comma_space. reflexivity.
  - simpl in Hocc. apply orb_false_iff in Hocc as [Hhere Hrest].
    change ((String c rest ++ ", " ++ more)%string)
      with (String c (rest ++ ", " ++ more)%string).
    cbn [Py.split_from].
    assert (Hp : prefix ", " (String c (rest ++ ", " ++ more)) = false).
    { assert (Hp0 : prefix ", " (String c rest) = false) by exact Hhere.
      rewrite prefix_comma_space in Hp0 |- *.
      destruct (Ascii.eqb c ","); [|reflexivity].
      destruct rest as [|c' rest']; simpl in *; [reflexivity | exact Hp0]. }
    rewrite Hp, IH by assumption.
    now rewrite string_app_assoc.
Qed.

(** A text without a comma is carried whole into the current piece. *)
Lemma split_from_comma_free (text more cur : string) :
  comma_free text = true ->
  Py.split_from ", " 0 cur (text ++ more)
  = Py.split_from ", " 0 (cur ++ text) more.
Proof.
  revert cur. induction text as [|c rest IH]; intros cur Hfree.
  - now rewrite string_app_nil_r.
  - simpl in Hfree. apply andb_true_iff in Hfree as [Hc Hrest].
    change ((String c rest ++ more)%string) with (String c (rest ++ more)%string).
    cbn [Py.split_from]. rewrite prefix_comma_space.
    destruct (Ascii.eqb c ","); [discriminate|]. simpl.
    rewrite IH by assumption. now rewrite string_app_assoc.
Qed.

(** The first piece of a split starts with the piece being accumulated. *)
Lemma split_from_head (sep s cur : string) :
  exists tail pieces,
    Py.split_from sep 0 cur s = (cur ++ tail)%string :: pieces.
Proof.
  revert cur. induction s as [|c rest IH]; intros cur.
  - exists "", []. now rewrite string_app_nil_r.
  - cbn [Py.split_from]. destruct (prefix sep (String c rest)).
    + exists "". eexists. now rewrite string_app_nil_r.
    + destruct (IH (cur ++ String c "")%string) as (tail & pieces & ->).
      exists (String c tail), pieces. now rewrite string_app_assoc.
Qed.

Lemma lit_dash (s : string) : Re.lit " - " (" - " ++ s) = [(" - ", s)].
Proof. reflexivity. Qed.

(** The time pattern on two clock readings joined by [" - "], whatever
    follows. *)
Lemma time_match_show_clocks (c1 c2 : clock) (rest : string) :
  valid_clock c1 = true -> valid_clock c2 = true ->
  time_match (show_clock c1 ++ " - " ++ show_clock c2 ++ rest)
  = Some (show_clock c1, show_clock c2).
Proof.
  intros H1 H2. unfold time_match.
  rewrite (show_clock_matches c1 _ H1).
  cbn [flat_map fst snd app]. rewrite lit_dash.
  cbn [flat_map fst snd app]. rewrite (show_clock_matches c2 _ H2).
  reflexivity.
Qed.

(** The pieces of a text made of a day list, [", "], a time range, and
    anything after it. *)
Lemma split_single_range (days_text rest : string) (c1 c2 : clock) :
  occurs ", " days_text = false ->
  valid_clock c1 = true -> valid_clock c2 = true ->
  exists tail pieces,
    Py.split ", " (days_text ++ ", " ++ show_clock c1 ++ " - " ++ show_clock c2 ++ rest)
    = days_text :: (show_clock c1 ++ " - " ++ show_clock c2 ++ tail)%string :: pieces.
Proof.
  intros Hocc H1 H2. unfold Py.split.
  rewrite split_from_first_separator by assumption.
  replace (show_clock c1 ++ " - " ++ show_clock c2 ++ rest)%string
    with ((show_clock c1 ++ " - " ++ show_clock c2) ++ rest)%string
    by (now rewrite !string_app_assoc).
  rewrite split_from_comma_free.
  - destruct (split_from_head ", " rest ("" ++ show_clock c1 ++ " - " ++ show_clock c2))
      as (tail & pieces & ->).
    exists tail, pieces. cbn [append]. now rewrite !string_app_assoc.
  - rewrite !comma_free_app, !show_clock_comma_free by assumption. reflexivity.
Qed.

(** X10. The parser on its grammar.  A day list without [", "], then [", "],
    a start and an end written as 12-hour clock readings joined by [" - "],
    then any text at all: [parse_schedule] returns one slot for each piece
    of the day list between [" and "], in order, with the day name mapped
    through [days_map] and the two times the readings denote. *)
Theorem parse_schedule_single_range (days_text rest : string) (c1 c2 : clock) :
  occurs ", " days_text = false ->
  valid_clock c1 = true -> valid_clock c2 = true ->
  parse_schedule
    (days_text ++ ", " ++ show_clock c1 ++ " - " ++ show_clock c2 ++ rest)
  = Ok (map (fun day => (dict_get days_map day day,
                         time_of_clock c1, time_of_clock c2))
            (map Py.strip (Py.split " and " days_text))).
Proof.
  intros Hocc H1 H2.
  destruct (split_single_range days_text rest c1 c2 Hocc H1 H2)
    as (tail & pieces & Hparts).
  unfold parse_schedule. cbv zeta. rewrite Hparts.
  cbn [nth List.length Nat.ltb Nat.leb].
  rewrite time_match_show_clocks by assumption.
  rewrite !strptime_show_clock by assumption.
  reflexivity.
Qed.

Lemma parse_schedule_single_range_witness :
  parse_schedule "Tuesdays and Thursdays, 3:30 PM - 4:30 PM (room 12, east wing)"
  = Ok [("Tuesday", mktime 15 30, mktime 16 30);
        ("Thursday", mktime 15 30, mktime 16 30)].
Proof.
  apply (parse_schedule_single_range "Tuesdays and Thursdays"
           " (room 12, east wing)" (mkclock 3 30 true false) (mkclock 4 30 true false)).
  - vm_compute. reflexivity.
  - vm_compute. reflexivity.
  - vm_compute. reflexivity.
Defined.
(** ** What the patterns of [strptime] let through *)

Lemma one_In (p : ascii -> bool) (s c r : string) :
  In (c, r) (Re.one p s) ->
  exists ch, c = String ch "" /\ p ch = true /\ s = String ch r.
Proof.
  unfold Re.one. destruct s as [|ch s']; [intros []|].
  destruct (p ch) eqn:Hp; [|intros []].
  intros [[= <- <-]|[]]. eauto.
Qed.

Lemma andthen_In (first : list (string * string))
    (k : string -> list (string * string)) (c r : string) :
  In (c, r) (Re.andthen first k) ->
  exists c1 r1 c2,
    In (c1, r1) first /\ In (c2, r) (k r1) /\ c = (c1 ++ c2)%string.
Proof.
  unfold Re.andthen. rewrite in_flat_map.
  intros ([c1 r1] & H1 & H). apply in_map_iff in H as ([c2 r2] & [= <- <-] & H2).
  exists c1, r1, c2. auto.
Qed.

Lemma in_range_bounds (lo hi c : ascii) :
  Re.in_range lo hi c = true ->
  (nat_of_ascii lo <= nat_of_ascii c <= nat_of_ascii hi)%nat.
Proof.
  unfold Re.in_range. rewrite andb_true_iff, !Nat.leb_le. tauto.
Qed.

Lemma isdigit_bounds (c : ascii) :
  Py.isdigit c = true -> (48 <= nat_of_ascii c <= 57)%nat.
Proof.
  unfold Py.isdigit. cbv zeta. rewrite andb_true_iff, !Nat.leb_le. tauto.
Qed.

Lemma int_one_digit (a : ascii) :
  Py.int (String a "") = Z.of_nat (nat_of_ascii a - 48).
Proof. unfold Py.int. cbn [Py.int_from]. lia. Qed.

Lemma int_two_digits (a b : ascii) :
  Py.int (String a (String b ""))
  = (10 * Z.of_nat (nat_of_ascii a - 48) + Z.of_nat (nat_of_ascii b - 48))%Z.
Proof. unfold Py.int. cbn [Py.int_from]. lia. Qed.

(** Evaluates the codes of the literal characters in the goal and in the
    hypotheses. *)
Ltac ascii_codes :=
  repeat match goal with
         | |- context [nat_of_ascii (Ascii ?a ?b ?c ?d ?e ?f ?g ?h)] =>
             let v := eval vm_compute in (nat_of_ascii (Ascii a b c d e f g h)) in
             change (nat_of_ascii (Ascii a b c d e f g h)) with v
         | H : context [nat_of_ascii (Ascii ?a ?b ?c ?d ?e ?f ?g ?h)] |- _ =>
             let v := eval vm_compute in (nat_of_ascii (Ascii a b c d e f g h)) in
             change (nat_of_ascii (Ascii a b c d e f g h)) with v in H
         end.

(** The hour group stands for a number from 1 to 12. *)
Lemma re_I_bounds (s g r : string) :
  In (g, r) (Re.matches Strptime.re_I s) -> (1 <= Py.int g <= 12)%Z.
Proof.
  unfold Strptime.re_I. cbn [Re.matches]. rewrite !in_app_iff.
  intros [H | [H | H]].
  - apply andthen_In in H as (c1 & r1 & c2 & H1 & H2 & ->).
    apply one_In in H1 as (a & -> & Ha & _).
    apply one_In in H2 as (b & -> & Hb & _).
    apply Ascii.eqb_eq in Ha. subst a.
    apply in_range_bounds in Hb.
    cbn [append]. rewrite int_two_digits. ascii_codes. lia.
  - apply andthen_In in H as (c1 & r1 & c2 & H1 & H2 & ->).
    apply one_In in H1 as (a & -> & Ha & _).
    apply one_In in H2 as (b & -> & Hb & _).
    apply Ascii.eqb_eq in Ha. subst a.
    apply in_range_bounds in Hb.
    cbn [append]. rewrite int_two_digits. ascii_codes. lia.
  - apply one_In in H as (a & -> & Ha & _).
    apply in_range_bounds in Ha.
    rewrite int_one_digit. ascii_codes. lia.
Qed.

(** The minute group stands for a number from 0 to 59. *)
Lemma re_M_bounds (s g r : string) :
  In (g, r) (Re.matches Strptime.re_M s) -> (0 <= Py.int g <= 59)%Z.
Proof.
  unfold Strptime.re_M. cbn [Re.matches]. rewrite !in_app_iff.
  intros [H | H].
  - apply andthen_In in H as (c1 & r1 & c2 & H1 & H2 & ->).
    apply one_In in H1 as (a & -> & Ha & _).
    apply one_In in H2 as (b & -> & Hb & _).
    apply in_range_bounds in Ha. apply isdigit_bounds in Hb.
    cbn [append]. rewrite int_two_digits. ascii_codes. lia.
  - apply one_In in H as (a & -> & Ha & _).
    apply isdigit_bounds in Ha.
    rewrite int_one_digit. lia.
Qed.

Lemma hd_error_In {A : Type} (l : list A) (x : A) :
  hd_error l = Some x -> In x l.
Proof. destruct l; simpl; [discriminate | intros [= ->]; now left]. Qed.

Lemma format_match_groups (s g_I g_M g_p rest : string) :
  Strptime.format_match s = Some (g_I, g_M, g_p, rest) ->
  (exists s1 r1, In (g_I, r1) (Re.matches Strptime.re_I s1)) /\
  (exists s2 r2, In (g_M, r2) (Re.matches Strptime.re_M s2)).
Proof.
  unfold Strptime.format_match. intros H. apply hd_error_In in H.
  apply in_flat_map in H as ([cI rI] & HI & H).
  apply in_flat_map in H as ([cc rc] & Hc & H).
  apply in_flat_map in H as ([cM rM] & HM & H).
  apply in_flat_map in H as ([cs rs] & Hs & H).
  apply in_map_iff in H as ([cp rp] & [= <- <- <- <-] & Hp).
  simpl in *. split; eauto.
Qed.

(** [strptime] returns times of day only. *)
Lemma strptime_in_range (s : string) (t : time) :
  Strptime.strptime s = Ok t -> time_in_range t.
Proof.
  unfold Strptime.strptime.
  destruct (Strptime.format_match s) as [[[[g_I g_M] g_p] rest]|] eqn:Hm;
    [|discriminate].
  destruct rest; [|discriminate].
  apply format_match_groups in Hm as [(s1 & r1 & HI) (s2 & r2 & HM)].
  apply re_I_bounds in HI. apply re_M_bounds in HM.
  intros [= <-]. unfold time_in_range. cbn [hour minute].
  split; [|assumption].
  destruct (String.eqb _ "am"); destruct (Z.eqb_spec (Py.int g_I) 12); lia.
Qed.

Lemma slots_of_days_in_range (days : list string) (start_str end_str : string)
    (slots : list slot) :
  (start_dt <- Strptime.strptime start_str ;;
   end_dt <- Strptime.strptime end_str ;;
   Ok (map (fun day => (dict_get days_map day day, start_dt, end_dt)) days))
  = Ok slots ->
  forall s, In s slots ->
            time_in_range (slot_start s) /\ time_in_range (slot_end s).
Proof.
  intros H.
  apply bind_Ok_inv in H as (start_dt & Hstart & H).
  apply bind_Ok_inv in H as (end_dt & Hend & H).
  injection H as <-. intros s Hin.
  apply in_map_iff in Hin as (day & <- & _).
  split; eapply strptime_in_range; eassumption.
Qed.

(** X11. Slots carry times of day.  Whatever the text, every slot that
    [parse_schedule] returns starts and ends at an hour from 0 to 23 and a
    minute from 0 to 59. *)
Theorem parse_schedule_times_in_range (schedule_str : string) (slots : list slot)
    (s : slot) :
  parse_schedule schedule_str = Ok slots -> In s slots ->
  time_in_range (slot_start s) /\ time_in_range (slot_end s).
Proof.
  unfold parse_schedule. cbv zeta.
  destruct (time_match _) as [[start_str end_str]|].
  - intros H. now apply (slots_of_days_in_range _ _ _ _ H).
  - destruct (1 <? _)%nat; [|intros [= <-] []].
    destruct (time_match _) as [[start_str end_str]|]; [|intros [= <-] []].
    intros H. now apply (slots_of_days_in_range _ _ _ _ H).
Qed.

Lemma parse_schedule_times_in_range_witness :
  time_in_range (mktime 10 0) /\ time_in_range (mktime 12 0).
Proof.
  apply (parse_schedule_times_in_range "Saturdays, 10:00 AM - 12:00 PM"
           [("Saturday", mktime 10 0, mktime 12 0)]
           ("Saturday", mktime 10 0, mktime 12 0)).
  - vm_compute. reflexivity.
  - simpl. left. reflexivity.
Defined.
(** ** [split] and [strip] *)

Lemma string_length_app (s1 s2 : string) :
  String.length (s1 ++ s2) = (String.length s1 + String.length s2)%nat.
Proof. induction s1 as [|c s1 IH]; simpl; [reflexivity | now rewrite IH]. Qed.

(** Dropping the rest of a separator. *)
Lemma split_from_skip (sep w cur s : string) :
  Py.split_from sep (String.length w) cur (w ++ s) = Py.split_from sep 0 cur s.
Proof.
  induction w as [|c w IH]; [reflexivity|].
  cbn [String.length append Py.split_from]. exact IH.
Qed.

Lemma prefix_split (sep s : string) :
  prefix sep s = true -> exists rest, s = (sep ++ rest)%string.
Proof.
  revert s. induction sep as [|a sep IH]; intros s H; [now exists s|].
  destruct s as [|b s]; [discriminate|].
  rewrite prefix_cons in H. destruct (ascii_dec a b) as [<-|]; [|discriminate].
  destruct (IH _ H) as (rest & ->). now exists rest.
Qed.

Lemma split_from_nonempty (sep : string) (skip : nat) (cur s : string) :
  Py.split_from sep skip cur s <> [].
Proof.
  revert skip cur. induction s as [|c s IH]; intros skip cur; [discriminate|].
  cbn [Py.split_from]. destruct skip; [|apply IH].
  destruct (prefix sep (String c s)); [discriminate | apply IH].
Qed.

Lemma concat_cons (sep x : string) (l : list string) :
  l <> [] -> String.concat sep (x :: l) = (x ++ sep ++ String.concat sep l)%string.
Proof. destruct l; [congruence | reflexivity]. Qed.

Lemma join_split_from (sep : string) (n : nat) :
  sep <> "" ->
  forall s cur, (String.length s <= n)%nat ->
                String.concat sep (Py.split_from sep 0 cur s) = (cur ++ s)%string.
Proof.
  intros Hsep. induction n as [|n IH]; intros s cur Hlen.
  - destruct s; [|simpl in Hlen; lia]. simpl. now rewrite string_app_nil_r.
  - destruct s as [|c s]; [simpl; now rewrite string_app_nil_r|].
    cbn [Py.split_from].
    destruct (prefix sep (String c s)) eqn:Hp.
    + destruct (prefix_split _ _ Hp) as (rest & Hs).
      destruct sep as [|a sep']; [congruence|].
      cbn [append] in Hs. injection Hs as <- ->.
      cbn [String.length]. rewrite Nat.sub_1_r. cbn [Nat.pred].
      rewrite split_from_skip.
      rewrite concat_cons by apply split_from_nonempty.
      rewrite IH.
      * reflexivity.
      * cbn [String.length] in Hlen. rewrite string_length_app in Hlen. lia.
    + rewrite IH by (simpl in Hlen; lia).
      now rewrite string_app_assoc.
Qed.

(** X12. [split] loses nothing.  For a non-empty separator the list of
    pieces is never empty, so [parts[0]] always exists, and joining the
    pieces with the separator gives back the text. *)
Theorem split_join (sep s : string) :
  sep <> "" ->
  Py.split sep s <> [] /\ String.concat sep (Py.split sep s) = s.
Proof.
  intros Hsep. split; [apply split_from_nonempty|].
  unfold Py.split. now rewrite (join_split_from sep (String.length s)).
Qed.

Lemma split_join_witness :
  Py.split ", " "Mondays, Wednesdays, Fridays, 2:00 PM - 3:00 PM" <> [] /\
  String.concat ", " (Py.split ", " "Mondays, Wednesdays, Fridays, 2:00 PM - 3:00 PM")
  = "Mondays, Wednesdays, Fridays, 2:00 PM - 3:00 PM".
Proof.
  apply (split_join ", " "Mondays, Wednesdays, Fridays, 2:00 PM - 3:00 PM").
  discriminate.
Defined.

Lemma rstrip_idempotent (s : string) : Py.rstrip (Py.rstrip s) = Py.rstrip s.
Proof.
  induction s as [|c s IH]; [reflexivity|].
  cbn [Py.rstrip]. destruct (Py.rstrip s) as [|c' kept] eqn:Hr.
  - destruct (Py.isspace c) eqn:Hc; [reflexivity|].
    cbn [Py.rstrip]. now rewrite Hc.
  - cbn [Py.rstrip]. cbn [Py.rstrip] in IH. now rewrite IH.
Qed.

Lemma lstrip_starts_clean (s : string) : starts_clean (Py.lstrip s).
Proof.
  induction s as [|c s IH]; simpl; [exact I|].
  destruct (Py.isspace c) eqn:Hc; [exact IH | exact Hc].
Qed.

Lemma rstrip_starts_clean (s : string) :
  starts_clean s -> starts_clean (Py.rstrip s).
Proof.
  destruct s as [|c s]; [trivial|]. intros Hc. cbn [Py.rstrip].
  destruct (Py.rstrip s); [|exact Hc].
  simpl in Hc. rewrite Hc. exact Hc.
Qed.

Lemma lstrip_clean (s : string) : starts_clean s -> Py.lstrip s = s.
Proof.
  destruct s as [|c s]; [reflexivity|]. simpl. now intros ->.
Qed.

Lemma strip_idempotent (s : string) : Py.strip (Py.strip s) = Py.strip s.
Proof.
  unfold Py.strip.
  rewrite (lstrip_clean (Py.rstrip (Py.lstrip s)))
    by apply rstrip_starts_clean, lstrip_starts_clean.
  apply rstrip_idempotent.
Qed.

Lemma dict_get_cons (k v : string) (d : list (string * string))
    (key default : string) :
  dict_get ((k, v) :: d) key default
  = if String.eqb k key then v else dict_get d key default.
Proof. reflexivity. Qed.

(** A clean token stays clean through [days_map.get(day, day)]. *)
Lemma days_map_get_stripped (day : string) :
  Py.strip day = day ->
  Py.strip (dict_get days_map day day) = dict_get days_map day day.
Proof.
  intros Hday. unfold days_map.
  repeat (rewrite dict_get_cons; destruct (String.eqb _ day); [reflexivity|]).
  exact Hday.
Qed.

Lemma slots_of_days_stripped (days : list string) (start_str end_str : string)
    (slots : list slot) :
  (start_dt <- Strptime.strptime start_str ;;
   end_dt <- Strptime.strptime end_str ;;
   Ok (map (fun day => (dict_get days_map day day, start_dt, end_dt))
           (map Py.strip days)))
  = Ok slots ->
  forall s, In s slots -> Py.strip (slot_day s) = slot_day s.
Proof.
  intros H.
  apply bind_Ok_inv in H as (start_dt & _ & H).
  apply bind_Ok_inv in H as (end_dt & _ & H).
  injection H as <-. intros s Hin.
  apply in_map_iff in Hin as (day & <- & Hday).
  apply in_map_iff in Hday as (raw & <- & _).
  apply days_map_get_stripped, strip_idempotent.
Qed.

(** X13. Clean day names.  The day of every slot is free of leading and
    trailing white space: stripping it again changes nothing. *)
Theorem parse_schedule_days_stripped (schedule_str : string) (slots : list slot)
    (s : slot) :
  parse_schedule schedule_str = Ok slots -> In s slots ->
  Py.strip (slot_day s) = slot_day s.
Proof.
  unfold parse_schedule. cbv zeta.
  destruct (time_match _) as [[start_str end_str]|].
  - intros H. now apply (slots_of_days_stripped _ _ _ _ H).
  - destruct (1 <? _)%nat; [|intros [= <-] []].
    destruct (time_match _) as [[start_str end_str]|]; [|intros [= <-] []].
    intros H. now apply (slots_of_days_stripped _ _ _ _ H).
Qed.

Lemma parse_schedule_days_stripped_witness :
  Py.strip "Thursday" = "Thursday".
Proof.
  apply (parse_schedule_days_stripped
           "Tuesdays  and  Thursdays , 3:30 PM - 4:30 PM"
           [("Tuesday", mktime 15 30, mktime 16 30);
            ("Thursday", mktime 15 30, mktime 16 30)]
           ("Thursday", mktime 15 30, mktime 16 30)).
  - vm_compute. reflexivity.
  - simpl. right. left. reflexivity.
Defined.

(** * Further invariants of the rosters *)

(** One request keeps every roster free of repeated emails. *)
Lemma signup_keeps_rosters_distinct (d : Directory) (activity_name email : string) :
  (forall k a, In (k, a) d -> NoDup (participants a)) ->
  forall k a, In (k, a) (snd (signup_for_activity d activity_name email)) ->
              NoDup (participants a).
Proof.
  intros Hinv k a.
  destruct (fst (signup_for_activity d activity_name email)) as [msg|e] eqn:Hout.
  - apply signup_succeeds_inv in Hout as (target & Hlook & Hnot & _ & ->). simpl.
    intros Hin.
    apply In_append_participant_inv in Hin as [Hin | (-> & a0 & Ha0 & ->)];
      [now eauto|].
    assert (a0 = target) by congruence. subst a0. simpl.
    apply NoDup_snoc; [|assumption].
    eapply Hinv, lookup_In, Hlook.
  - rewrite (signup_fails_unchanged _ _ _ _ Hout). apply Hinv.
Qed.

(** X14. No student twice on a roster.  In every directory the program
    reaches, no roster lists an email more than once. *)
Theorem reachable_rosters_distinct (d : Directory) :
  reachable d -> forall k a, In (k, a) d -> NoDup (participants a).
Proof.
  induction 1 as [|d activity_name email _ IH].
  - apply all_distinct_spec. vm_compute. reflexivity.
  - now apply signup_keeps_rosters_distinct.
Qed.

Lemma reachable_rosters_distinct_witness :
  NoDup (participants full_art_workshop).
Proof.
  apply (reachable_rosters_distinct full_workshop full_workshop_reachable
           "Art Workshop" full_art_workshop).
  vm_compute. right. right. left. reflexivity.
Defined.
